(** * USB serial stream layer of the grblHAL MKRZERO driver

    Shallow embedding of [usb_serial.cpp]
    (drivers/SAMD21/grblHAL_MKRZERO/src): the receive ring buffer with its
    backup slot, the receive pump, the input suspend/resume switch and the
    block transmit buffer.

    Conventions of the embedding

    - The three file-level statics [usb_rxbuffer], [usb_rxbackup] and the
      function pointer [hal.stream.read] form the record [usb_state]; every
      C function that touches them becomes a function on [usb_state].
    - [char] is the unsigned 8-bit type of the ARM EABI (the SAMD21 is a
      Cortex-M0+), so a character is a [Z] in [0, 256) and the cast
      [(int16_t)data] in [usb_serialGetC] preserves its value.
    - [size_t] is 32 bits wide, [uint16_t] 16 bits; their wrap-around is
      written out with [mod].
    - [driver.h] is not part of the translated file.  The constants it
      supplies ([RX_BUFFER_SIZE], [BLOCK_TX_BUFFER_SIZE], [CMD_TOOL_ACK],
      [CMD_RESET], [ASCII_LF]) and the two callbacks of the [hal] structure
      are Section variables. *)

From Stdlib Require Import ZArith Lia Bool List.
From stdpp Require Import base list.
Import ListNotations.

Local Open Scope Z_scope.

(** ** Data model *)

(** Modelled from the spec: the declaration of [stream_rx_buffer_t] lives in
    the absent [driver.h].  The spec lists a fixed-size byte array, [head]
    (next write index), [tail] (next read index), the [overflow] flag and
    the backup-active flag. *)
Record stream_rx_buffer_t : Type := mk_rx {
  head : Z;
  tail : Z;
  overflow : bool;
  backup : bool;
  data : list Z
}.

(** The two functions [hal.stream.read] is ever set to in this file. *)
Inductive read_fn : Type :=
  | fn_usb_serialGetC
  | fn_serialGetNull.

Record usb_state : Type := mk_usb {
  usb_rxbuffer : stream_rx_buffer_t;
  usb_rxbackup : stream_rx_buffer_t;
  hal_stream_read : read_fn
}.

(** Modelled from the spec: the declaration of [stream_block_tx_buffer_t] is
    in the absent [driver.h].  The spec lists a bounded staging buffer, a
    write cursor and the accumulated length; [max_length] is the high-water
    mark computed by [usb_serialInit].  The pointer [txbuf.s] is kept as its
    offset from [txbuf.data]. *)
Record stream_block_tx_buffer_t : Type := mk_tx {
  txbuf_length : Z;
  txbuf_max_length : Z;
  txbuf_s : Z;
  txbuf_data : list Z
}.

(** The transmit side together with what it exchanges with its two
    collaborators: the bytes handed to [SerialUSB.write] so far, and how
    often [SerialUSB.availableForWrite] and
    [hal.stream_blocking_callback] have been called. *)
Record tx_world : Type := mk_world {
  txbuf : stream_block_tx_buffer_t;
  usb_out : list Z;
  n_avail : nat;
  n_poll : nat
}.

(** Outcome of a C function that may read or write outside an array or
    spin without bound. *)
Inductive result (A : Type) : Type :=
  | Ok (a : A)
  | OutOfBounds (index : Z)
  | OutOfFuel.
Arguments Ok {A} a.
Arguments OutOfBounds {A} index.
Arguments OutOfFuel {A}.

Definition bind {A B : Type} (r : result A) (k : A -> result B) : result B :=
  match r with
  | Ok a => k a
  | OutOfBounds i => OutOfBounds i
  | OutOfFuel => OutOfFuel
  end.

Notation "'let*' x ':=' r 'in' k" := (bind r (fun x => k))
  (at level 10, x name, r at level 100, k at level 200).

(** How the flush loop of [usb_serialWriteS] is left. *)
Inductive flush_exit : Type :=
  | LoopDone
  | Returned.

(** Array read [a[i]].  An index outside the array is undefined behaviour
    in C; the embedding then yields 0, and every theorem about buffer
    contents carries the bounds that rule this case out. *)
Definition rd (a : list Z) (i : Z) : Z := default 0 (a !! Z.to_nat i).

(** Array write [a[i] = v]; outside the array nothing is written. *)
Definition wr (a : list Z) (i : Z) (v : Z) : list Z := <[Z.to_nat i := v]> a.

Definition uint16 (x : Z) : Z := x mod 65536.
Definition size_t (x : Z) : Z := x mod 4294967296.

(** Modelled from the spec: the macro [BUFCOUNT] is defined in the absent
    [driver.h]; the spec gives the count of buffered bytes as
    [(head - tail) mod N]. *)
Definition BUFCOUNT (h t size : Z) : Z := (h - t) mod size.

Definition BLOCK_RX_BUFFER_SIZE : Z := 20.

Definition set_rxbuffer (st : usb_state) (rb : stream_rx_buffer_t) : usb_state :=
  mk_usb rb (usb_rxbackup st) (hal_stream_read st).

(** A C string: the characters before the terminating NUL. *)
Definition strlen (s : list Z) : Z := Z.of_nat (length s).

(** [s[i]]: the characters, then the terminator, then nothing. *)
Definition char_at (s : list Z) (i : Z) : result Z :=
  if (0 <=? i) && (i <? strlen s) then Ok (rd s i)
  else if i =? strlen s then Ok 0
  else OutOfBounds i.

(** The cells [off], [off + 1], ... of [dst] overwritten with [src]. *)
Fixpoint copy_cells (dst : list Z) (off : Z) (src : list Z) : list Z :=
  match src with
  | [] => dst
  | c :: src' => copy_cells (wr dst off c) (off + 1) src'
  end.

(** [memcpy(dst + off, src, strlen src)] into the array [dst].  A copy of
    no bytes writes nothing.  A copy that would leave the array is
    undefined behaviour in C: it is reported as out of bounds, at the
    first cell it would write outside the array. *)
Definition memcpy (dst : list Z) (off : Z) (src : list Z)
  : result (list Z) :=
  if strlen src =? 0 then Ok dst
  else if (0 <=? off) && (off + strlen src <=? Z.of_nat (length dst))
  then Ok (copy_cells dst off src)
  else OutOfBounds (if (0 <=? off) && (off <? Z.of_nat (length dst))
                    then Z.of_nat (length dst) else off).

(** A classifier to instantiate the statements with: it claims the reset
    character 0x18, the characters '?', '~' and '!', and everything above
    0x7F, in the manner of grbl's real-time commands. *)
Definition sample_classifier (c : Z) : bool :=
  (c =? 24) || (c =? 63) || (c =? 126) || (c =? 33) || (127 <? c).

Section UsbSerial.

Variable RX_BUFFER_SIZE : Z.
Variable BLOCK_TX_BUFFER_SIZE : Z.
Variables CMD_TOOL_ACK CMD_RESET ASCII_LF : Z.

(** [hal.stream.enqueue_realtime_command]: the answer of the real-time
    classifier, taken as a function of the character alone. *)
Variable enqueue_realtime_command : Z -> bool.

(** [SerialUSB.availableForWrite()] and [hal.stream_blocking_callback()]:
    the answer to the n-th call. *)
Variable availableForWrite : nat -> Z.
Variable stream_blocking_callback : nat -> bool.

(** State at start-up: both buffers are zero-initialised statics, and
    [hal.stream.read] is the normal reader. *)
Definition rx_zero : stream_rx_buffer_t :=
  mk_rx 0 0 false false (replicate (Z.to_nat RX_BUFFER_SIZE) 0).

Definition usb_init : usb_state := mk_usb rx_zero rx_zero fn_usb_serialGetC.

Definition usb_serialRxCount (st : usb_state) : Z :=
  let t := tail (usb_rxbuffer st) in
  let h := head (usb_rxbuffer st) in
  uint16 (BUFCOUNT h t RX_BUFFER_SIZE).

Definition usb_serialRxFree (st : usb_state) : Z :=
  let t := tail (usb_rxbuffer st) in
  let h := head (usb_rxbuffer st) in
  uint16 ((RX_BUFFER_SIZE - 1) - BUFCOUNT h t RX_BUFFER_SIZE).

Definition usb_serialRxFlush (st : usb_state) : usb_state :=
  let rb := usb_rxbuffer st in
  set_rxbuffer st (mk_rx 0 0 false (backup rb) (data rb)).

Definition usb_serialRxCancel (st : usb_state) : usb_state :=
  let rb := usb_rxbuffer st in
  let data1 := wr (data rb) (head rb) CMD_RESET in
  let tail1 := head rb in
  let head1 := Z.land (tail1 + 1) (RX_BUFFER_SIZE - 1) in
  set_rxbuffer st (mk_rx head1 tail1 (overflow rb) (backup rb) data1).

Definition usb_serialGetC (st : usb_state) : Z * usb_state :=
  let rb := usb_rxbuffer st in
  let bptr := uint16 (tail rb) in
  if bptr =? head rb then (-1, st)
  else
    let d := rd (data rb) bptr in
    let bptr1 := uint16 (bptr + 1) in
    (d, set_rxbuffer st
          (mk_rx (head rb) (Z.land bptr1 (RX_BUFFER_SIZE - 1))
                 (overflow rb) (backup rb) (data rb))).

Definition serialGetNull (st : usb_state) : Z * usb_state := (-1, st).

(** A call through the pointer [hal.stream.read]. *)
Definition hal_read (st : usb_state) : Z * usb_state :=
  match hal_stream_read st with
  | fn_usb_serialGetC => usb_serialGetC st
  | fn_serialGetNull => serialGetNull st
  end.

Definition usb_serialSuspendInput (suspend : bool) (st : usb_state)
  : bool * usb_state :=
  let st1 :=
    if suspend then
      mk_usb (usb_rxbuffer st) (usb_rxbackup st) fn_serialGetNull
    else if backup (usb_rxbuffer st) then
      mk_usb (usb_rxbackup st) (usb_rxbackup st) (hal_stream_read st)
    else st in
  (negb (tail (usb_rxbuffer st1) =? head (usb_rxbuffer st1)), st1).

(** Body of the [while(avail--)] loop of [usb_execute_realtime] for the
    character [c]. *)
Definition usb_execute_realtime_byte (st : usb_state) (c : Z) : usb_state :=
  let rb := usb_rxbuffer st in
  if (c =? CMD_TOOL_ACK) && negb (backup rb) then
    mk_usb (mk_rx (head rb) (head rb) (overflow rb) true (data rb))
           rb
           fn_usb_serialGetC
  else if negb (enqueue_realtime_command c) then
    let bptr := Z.land (head rb + 1) (RX_BUFFER_SIZE - 1) in
    if bptr =? tail rb then
      set_rxbuffer st (mk_rx (head rb) (tail rb) true (backup rb) (data rb))
    else
      set_rxbuffer st
        (mk_rx bptr (tail rb) (overflow rb) (backup rb)
               (wr (data rb) (head rb) c))
  else st.

(** The loop itself, over the characters copied into [rxbuf]. *)
Definition usb_execute_realtime_loop (st : usb_state) (rxbuf : list Z)
  : usb_state :=
  fold_left usb_execute_realtime_byte rxbuf st.

(** [usb_execute_realtime]; [usb_in] is what the transport holds, and what
    is left of it is returned with the new state. *)
Definition usb_execute_realtime (usb_in : list Z) (st : usb_state)
  : list Z * usb_state :=
  let avail := Z.of_nat (length usb_in) in
  if avail =? 0 then (usb_in, st)
  else
    let free := usb_serialRxFree st in
    let free := if free >? BLOCK_RX_BUFFER_SIZE
                then BLOCK_RX_BUFFER_SIZE else free in
    let avail := if avail >? free then free else avail in
    (drop (Z.to_nat avail) usb_in,
     usb_execute_realtime_loop st (take (Z.to_nat avail) usb_in)).

(** The loop [while(txbuf.length)] of [usb_serialWriteS]; one unit of
    fuel per evaluation of the loop condition. *)
Fixpoint usb_serialWriteS_flush (fuel : nat) (w : tx_world)
  : result (flush_exit * tx_world) :=
  match fuel with
  | O => OutOfFuel
  | S fuel' =>
    let tb := txbuf w in
    if txbuf_length tb =? 0 then Ok (LoopDone, w)
    else
      let avail := size_t (availableForWrite (n_avail w)) in
      let w1 :=
        if avail >? 10 then
          let len := if avail <? txbuf_length tb
                     then avail else txbuf_length tb in
          mk_world
            (mk_tx (size_t (txbuf_length tb - len)) (txbuf_max_length tb)
                   (txbuf_s tb + len) (txbuf_data tb))
            (usb_out w ++ take (Z.to_nat len)
                               (drop (Z.to_nat (txbuf_s tb)) (txbuf_data tb)))
            (S (n_avail w)) (n_poll w)
        else mk_world tb (usb_out w) (S (n_avail w)) (n_poll w) in
      if txbuf_length (txbuf w1) =? 0 then usb_serialWriteS_flush fuel' w1
      else
        let go_on := stream_blocking_callback (n_poll w1) in
        let w2 := mk_world (txbuf w1) (usb_out w1) (n_avail w1)
                           (S (n_poll w1)) in
        if negb go_on then Ok (Returned, w2)
        else usb_serialWriteS_flush fuel' w2
  end.

Definition usb_serialWriteS (fuel : nat) (s : list Z) (w : tx_world)
  : result tx_world :=
  let tb := txbuf w in
  let len := size_t (strlen s) in
  if size_t (len + txbuf_length tb) <? BLOCK_TX_BUFFER_SIZE then
    let* data1 := memcpy (txbuf_data tb) (txbuf_s tb) s in
    let tb1 := mk_tx (size_t (txbuf_length tb + len)) (txbuf_max_length tb)
                     (txbuf_s tb + len) data1 in
    let* last := char_at s (size_t (len - 1)) in
    if (last =? ASCII_LF) || (txbuf_length tb1 >? txbuf_max_length tb1) then
      let tb2 := mk_tx (txbuf_length tb1) (txbuf_max_length tb1) 0
                       (txbuf_data tb1) in
      let* r := usb_serialWriteS_flush fuel
                  (mk_world tb2 (usb_out w) (n_avail w) (n_poll w)) in
      match r with
      | (Returned, w') => Ok w'
      | (LoopDone, w') =>
        Ok (mk_world (mk_tx 0 (txbuf_max_length (txbuf w')) 0
                            (txbuf_data (txbuf w')))
                     (usb_out w') (n_avail w') (n_poll w'))
      end
    else Ok (mk_world tb1 (usb_out w) (n_avail w) (n_poll w))
  else Ok w.

(** ** Vocabulary of the statements *)

(** Both indices inside the array. *)
Definition rx_wf (rb : stream_rx_buffer_t) : Prop :=
  0 <= head rb < RX_BUFFER_SIZE /\
  0 <= tail rb < RX_BUFFER_SIZE /\
  Z.of_nat (length (data rb)) = RX_BUFFER_SIZE.

Definition usb_inv (st : usb_state) : Prop :=
  rx_wf (usb_rxbuffer st) /\ rx_wf (usb_rxbackup st).

(** The characters waiting between [tail] and [head], oldest first. *)
Definition rx_contents (rb : stream_rx_buffer_t) : list Z :=
  map (fun k => rd (data rb) ((tail rb + Z.of_nat k) mod RX_BUFFER_SIZE))
      (seq 0 (Z.to_nat (BUFCOUNT (head rb) (tail rb) RX_BUFFER_SIZE))).

(** [n] calls of [usb_serialGetC] in a row, with the values returned. *)
Fixpoint getc_n (n : nat) (st : usb_state) : list Z * usb_state :=
  match n with
  | O => ([], st)
  | S n' =>
    let (v, st1) := usb_serialGetC st in
    let (vs, st2) := getc_n n' st1 in
    (v :: vs, st2)
  end.

(** [n] calls of [usb_execute_realtime] in a row, the transport holding
    [usb_in] before the first. *)
Fixpoint pump_calls (n : nat) (usb_in : list Z) (st : usb_state)
  : list Z * usb_state :=
  match n with
  | O => (usb_in, st)
  | S n' =>
    let (rest, st1) := usb_execute_realtime usb_in st in
    pump_calls n' rest st1
  end.

(** The calls the rest of the firmware can make into the receive side. *)
Inductive op : Type :=
  | OpByte (c : Z)          (* one round of the pump loop *)
  | OpRead                  (* hal.stream.read() *)
  | OpGetC                  (* usb_serialGetC() *)
  | OpFlush                 (* usb_serialRxFlush() *)
  | OpCancel                (* usb_serialRxCancel() *)
  | OpSuspend (b : bool).   (* usb_serialSuspendInput(b) *)

(** One call: the value a read returned, if the call was a read, and the
    state it leaves. *)
Definition run_op (o : op) (st : usb_state) : option Z * usb_state :=
  match o with
  | OpByte c => (None, usb_execute_realtime_byte st c)
  | OpRead => let (v, st1) := hal_read st in (Some v, st1)
  | OpGetC => let (v, st1) := usb_serialGetC st in (Some v, st1)
  | OpFlush => (None, usb_serialRxFlush st)
  | OpCancel => (None, usb_serialRxCancel st)
  | OpSuspend b => (None, snd (usb_serialSuspendInput b st))
  end.

(** A sequence of calls: the values the reads returned, in order, and
    the final state. *)
Fixpoint run (tr : list op) (st : usb_state) : list Z * usb_state :=
  match tr with
  | [] => ([], st)
  | o :: tr' =>
    let (r, st1) := run_op o st in
    let (vs, st2) := run tr' st1 in
    (match r with Some v => v :: vs | None => vs end, st2)
  end.

Definition is_cancel (o : op) : bool :=
  match o with OpCancel => true | _ => false end.

Definition is_resume (o : op) : bool :=
  match o with OpSuspend false => true | _ => false end.

(** A character the pump stores: neither claimed by the real-time
    classifier nor the stream-redirect signal. *)
Definition ordinary (c : Z) : Prop :=
  enqueue_realtime_command c = false /\ c <> CMD_TOOL_ACK.

(** The sentence of the specification on the stream-redirect signal,
    word for word: snapshot, backup flag, collapse, null reader. *)
Definition signal_installs_null_reader (st : usb_state) (c : Z) : Prop :=
  c = CMD_TOOL_ACK ->
  backup (usb_rxbuffer st) = false ->
  let st' := usb_execute_realtime_byte st c in
  usb_rxbackup st' = usb_rxbuffer st /\
  backup (usb_rxbuffer st') = true /\
  tail (usb_rxbuffer st') = head (usb_rxbuffer st') /\
  hal_stream_read st' = fn_serialGetNull.

(** The sentence of the specification on a full buffer, read of the
    receive pump as the code has it: [usb_execute_realtime] is called with
    one more ordinary character in the transport.  The overflow flag is
    set, the character is gone from the transport without being stored,
    and array, [head] and [tail] are as before. *)
Definition full_buffer_push_overflows (st : usb_state) (c : Z) : Prop :=
  Z.land (head (usb_rxbuffer st) + 1) (RX_BUFFER_SIZE - 1)
  = tail (usb_rxbuffer st) ->
  ordinary c ->
  let r := usb_execute_realtime [c] st in
  overflow (usb_rxbuffer (snd r)) = true /\
  fst r = [] /\
  data (usb_rxbuffer (snd r)) = data (usb_rxbuffer st) /\
  head (usb_rxbuffer (snd r)) = head (usb_rxbuffer st) /\
  tail (usb_rxbuffer (snd r)) = tail (usb_rxbuffer st).

(** The sentence of the specification on resuming, word for word: with a
    backup active the snapshot comes back, the flag is cleared, the normal
    reader is installed again, the result tells whether the restored
    buffer holds data, and reading through [hal.stream.read] yields the
    restored characters. *)
Definition resume_restores_reader (st : usb_state) : Prop :=
  backup (usb_rxbuffer st) = true ->
  let (pending, st') := usb_serialSuspendInput false st in
  usb_rxbuffer st' = usb_rxbackup st /\
  backup (usb_rxbuffer st') = false /\
  hal_stream_read st' = fn_usb_serialGetC /\
  (pending = true <-> rx_contents (usb_rxbackup st) <> []) /\
  (rx_contents (usb_rxbackup st) <> [] ->
   fst (hal_read st') = hd 0 (rx_contents (usb_rxbackup st))).

(** What a read may return besides -1: a character the classifier does
    not claim, or, once [usb_serialRxCancel] has been called ([inj]), the
    reset character it injects. *)
Definition unclaimed (inj : bool) (v : Z) : Prop :=
  enqueue_realtime_command v = false \/ (inj = true /\ v = CMD_RESET).

Definition rx_clean (inj : bool) (rb : stream_rx_buffer_t) : Prop :=
  Forall (unclaimed inj) (rx_contents rb).

Definition usb_clean (inj : bool) (st : usb_state) : Prop :=
  rx_clean inj (usb_rxbuffer st) /\ rx_clean inj (usb_rxbackup st).

(** ** The remaining functions of the file *)

(** [usb_serialPutC]: the character goes straight to [SerialUSB.write]. *)
Definition usb_serialPutC (c : Z) (w : tx_world) : bool * tx_world :=
  (true, mk_world (txbuf w) (usb_out w ++ [c]) (n_avail w) (n_poll w)).

(** [*ptr] into a buffer of raw bytes: no terminator is promised, so the
    bytes of the buffer and nothing else. *)
Definition byte_at (s : list Z) (i : Z) : result Z :=
  if (0 <=? i) && (i <? Z.of_nat (length s)) then Ok (rd s i)
  else OutOfBounds i.

(** The loop [while(length--) usb_serialPutC( *ptr++ )] of
    [usb_serialWrite], [n] rounds from offset [i]. *)
Fixpoint usb_serialWrite_loop (n : nat) (s : list Z) (i : Z) (w : tx_world)
  : result tx_world :=
  match n with
  | O => Ok w
  | S n' =>
    let* c := byte_at s i in
    usb_serialWrite_loop n' s (i + 1) (snd (usb_serialPutC c w))
  end.

(** [usb_serialWrite]; the count is a [uint16_t]. *)
Definition usb_serialWrite (s : list Z) (len : Z) (w : tx_world)
  : result tx_world :=
  usb_serialWrite_loop (Z.to_nat (uint16 len)) s 0 w.

(** The string literal behind [ASCII_EOL], a macro of the absent headers. *)
Variable ASCII_EOL : list Z.

Definition usb_serialWriteLn (fuel : nat) (s : list Z) (w : tx_world)
  : result tx_world :=
  let* w1 := usb_serialWriteS fuel s w in
  usb_serialWriteS fuel ASCII_EOL w1.

(** [usb_serialInit], as far as [txbuf] goes: the cursor is put at the
    base and the high-water mark is computed from the answer of the
    transport, in [size_t] arithmetic. *)
Definition usb_serialInit (w : tx_world) : tx_world :=
  let tb := txbuf w in
  let m := size_t (availableForWrite (n_avail w)) in
  let m := size_t ((if m >? BLOCK_TX_BUFFER_SIZE
                    then BLOCK_TX_BUFFER_SIZE else m) - 20) in
  mk_world (mk_tx (txbuf_length tb) m 0 (txbuf_data tb))
           (usb_out w) (S (n_avail w)) (n_poll w).

(** The stage as the append path of [usb_serialWriteS] expects it: the
    cursor sits right behind the staged characters, which leave room in
    the array. *)
Definition tx_consistent (w : tx_world) : Prop :=
  txbuf_s (txbuf w) = txbuf_length (txbuf w) /\
  0 <= txbuf_length (txbuf w) < BLOCK_TX_BUFFER_SIZE /\
  Z.of_nat (length (txbuf_data (txbuf w))) = BLOCK_TX_BUFFER_SIZE /\
  BLOCK_TX_BUFFER_SIZE <= 4294967296.

(** The characters staged and not yet sent. *)
Definition tx_staged (w : tx_world) : list Z :=
  take (Z.to_nat (txbuf_length (txbuf w))) (txbuf_data (txbuf w)).

(** What a flush still has to send: [txbuf.length] characters from the
    cursor on. *)
Definition tx_pending (w : tx_world) : list Z :=
  take (Z.to_nat (txbuf_length (txbuf w)))
       (drop (Z.to_nat (txbuf_s (txbuf w))) (txbuf_data (txbuf w))).

(** ** Array reads and writes *)

Lemma rd_wr_same (a : list Z) (i v : Z) :
  0 <= i < Z.of_nat (length a) -> rd (wr a i v) i = v.
Proof.
  intros Hi. unfold rd, wr.
  rewrite list_lookup_insert_eq by lia. reflexivity.
Qed.

Lemma rd_wr_other (a : list Z) (i j v : Z) :
  0 <= i -> 0 <= j -> i <> j -> rd (wr a i v) j = rd a j.
Proof.
  intros Hi Hj Hne. unfold rd, wr.
  rewrite list_lookup_insert_ne by lia. reflexivity.
Qed.

Lemma wr_length (a : list Z) (i v : Z) : length (wr a i v) = length a.
Proof. unfold wr. apply length_insert. Qed.

(** Inside the array [memcpy] is the plain copy. *)
Lemma memcpy_ok (dst : list Z) (off : Z) (src : list Z) :
  0 <= off -> off + strlen src <= Z.of_nat (length dst) ->
  memcpy dst off src = Ok (copy_cells dst off src).
Proof.
  intros Hoff Hend. unfold memcpy.
  destruct (strlen src =? 0) eqn:E0.
  - apply Z.eqb_eq in E0. unfold strlen in E0.
    assert (src = []) as -> by (apply length_zero_iff_nil; lia).
    reflexivity.
  - assert (((0 <=? off) && (off + strlen src <=? Z.of_nat (length dst)))
            = true) as ->.
    { apply andb_true_iff. split; apply Z.leb_le; assumption. }
    reflexivity.
Qed.

(** ** The flush loop of the transmit side *)

Lemma flush_abort (fuel : nat) (w : tx_world) :
  txbuf_length (txbuf w) <> 0 ->
  size_t (availableForWrite (n_avail w)) <= 10 ->
  stream_blocking_callback (n_poll w) = false ->
  usb_serialWriteS_flush (S fuel) w
  = Ok (Returned,
        mk_world (txbuf w) (usb_out w) (S (n_avail w)) (S (n_poll w))).
Proof.
  intros Hlen Havail Hpoll. simpl.
  apply Z.eqb_neq in Hlen. rewrite Hlen.
  assert ((size_t (availableForWrite (n_avail w)) >? 10) = false) as ->
    by (rewrite Z.gtb_ltb; apply Z.ltb_ge; exact Havail).
  simpl. rewrite Hlen, Hpoll. reflexivity.
Qed.

Lemma flush_in_bounds (fuel : nat) (w : tx_world) (i : Z) :
  usb_serialWriteS_flush fuel w <> OutOfBounds i.
Proof.
  revert w. induction fuel as [| fuel IH]; intros w; simpl.
  - discriminate.
  - destruct (txbuf_length (txbuf w) =? 0); [discriminate |].
    match goal with
    | |- context [if txbuf_length (txbuf ?w1) =? 0 then _ else _] =>
      destruct (txbuf_length (txbuf w1) =? 0); [apply IH |];
      destruct (negb (stream_blocking_callback (n_poll w1)));
      [discriminate | apply IH]
    end.
Qed.

Lemma size_t_small (x : Z) : 0 <= x < 4294967296 -> size_t x = x.
Proof. intros H. unfold size_t. apply Z.mod_small. exact H. Qed.

(** For a string that is not empty and a copy that stays on the stage,
    every character read is inside the string. *)
Lemma writeS_nonempty_in_bounds (fuel : nat) (s : list Z) (w : tx_world)
      (i : Z) :
  0 < strlen s < 4294967296 ->
  0 <= txbuf_s (txbuf w) ->
  txbuf_s (txbuf w) + strlen s <= Z.of_nat (length (txbuf_data (txbuf w))) ->
  usb_serialWriteS fuel s w <> OutOfBounds i.
Proof.
  intros Hs Hoff Hend. unfold usb_serialWriteS.
  rewrite (size_t_small (strlen s)) by lia.
  rewrite (size_t_small (strlen s - 1)) by lia.
  destruct (_ <? BLOCK_TX_BUFFER_SIZE); [| discriminate].
  rewrite (memcpy_ok _ _ _ Hoff Hend). cbn [bind].
  unfold char_at.
  assert (((0 <=? strlen s - 1) && (strlen s - 1 <? strlen s)) = true)
    as ->.
  { apply andb_true_iff. split; [apply Z.leb_le | apply Z.ltb_lt]; lia. }
  simpl. destruct (_ || _); [| discriminate].
  match goal with
  | |- context [usb_serialWriteS_flush fuel ?w0] =>
    pose proof (flush_in_bounds fuel w0 i) as H;
    destruct (usb_serialWriteS_flush fuel w0) as [[[|] w'] | |];
    simpl; congruence
  end.
Qed.

(** ** Claims on the transmit side *)

(** C2, what the code does.  Let [usb_serialWriteS] append a non-empty
    string that fits, the copy staying inside the stage array (beyond it
    line 113 overruns the array and C defines no behaviour), and start a
    flush.  If the first answer of the
    transport is a capacity of at most 10 and the first answer of the
    poll callback is false, the call returns (for any positive amount of
    fuel) with the cursor at the base of the stage, nothing handed to the
    transport, and the accumulated length NOT reset: it is the old
    length plus the length of the string, which is not zero. *)
Theorem C2_flush_abort_keeps_length (fuel : nat) (s : list Z)
        (w : tx_world) :
  let len := strlen s in
  let total := size_t (txbuf_length (txbuf w) + len) in
  0 < len < 4294967296 ->
  0 <= txbuf_s (txbuf w) ->
  txbuf_s (txbuf w) + len <= Z.of_nat (length (txbuf_data (txbuf w))) ->
  size_t (len + txbuf_length (txbuf w)) < BLOCK_TX_BUFFER_SIZE ->
  rd s (len - 1) = ASCII_LF \/ total > txbuf_max_length (txbuf w) ->
  total <> 0 ->
  size_t (availableForWrite (n_avail w)) <= 10 ->
  stream_blocking_callback (n_poll w) = false ->
  exists w',
    usb_serialWriteS (S fuel) s w = Ok w' /\
    txbuf_s (txbuf w') = 0 /\
    txbuf_length (txbuf w') = total /\
    txbuf_length (txbuf w') <> 0 /\
    usb_out w' = usb_out w.
Proof.
  intros len total Hlen Hoff Hend Hfits Hflush Hnz Havail Hpoll.
  subst len total. unfold usb_serialWriteS.
  rewrite (size_t_small (strlen s)) by lia.
  rewrite (size_t_small (strlen s - 1)) by lia.
  apply Z.ltb_lt in Hfits. rewrite Hfits.
  rewrite (memcpy_ok _ _ _ Hoff Hend). cbn [bind].
  unfold char_at.
  assert (((0 <=? strlen s - 1) && (strlen s - 1 <? strlen s)) = true)
    as ->.
  { apply andb_true_iff. split; [apply Z.leb_le | apply Z.ltb_lt]; lia. }
  cbn [bind txbuf_length txbuf_max_length].
  assert (((rd s (strlen s - 1) =? ASCII_LF)
           || (size_t (txbuf_length (txbuf w) + strlen s)
               >? txbuf_max_length (txbuf w))) = true) as ->.
  { apply orb_true_iff. destruct Hflush as [H | H].
    - left. apply Z.eqb_eq. exact H.
    - right. rewrite Z.gtb_ltb. apply Z.ltb_lt. lia. }
  rewrite flush_abort by assumption.
  cbn [bind]. eexists. split; [reflexivity |]. simpl.
  repeat split; assumption.
Qed.

(** C4, what the code does.  With the empty string, and room on the
    stage, [usb_serialWriteS] evaluates [s[length - 1]] with
    [length = 0]: the index wraps to 4294967295 and the read leaves the
    string, whatever the fuel. *)
Theorem C4_empty_string_reads_out_of_bounds (fuel : nat) (w : tx_world) :
  size_t (txbuf_length (txbuf w)) < BLOCK_TX_BUFFER_SIZE ->
  usb_serialWriteS fuel [] w = OutOfBounds 4294967295.
Proof.
  intros Hfits. unfold usb_serialWriteS.
  change (size_t (strlen [])) with 0.
  rewrite Z.add_0_l. apply Z.ltb_lt in Hfits. rewrite Hfits.
  reflexivity.
Qed.

(** ** The pump loop body: signal, claimed, full *)

Lemma byte_signal (st : usb_state) (c : Z) :
  c = CMD_TOOL_ACK -> backup (usb_rxbuffer st) = false ->
  usb_execute_realtime_byte st c
  = mk_usb (mk_rx (head (usb_rxbuffer st)) (head (usb_rxbuffer st))
                  (overflow (usb_rxbuffer st)) true (data (usb_rxbuffer st)))
           (usb_rxbuffer st) fn_usb_serialGetC.
Proof.
  intros Hc Hb. unfold usb_execute_realtime_byte.
  rewrite Hc, Z.eqb_refl, Hb. reflexivity.
Qed.

Lemma byte_not_signal (st : usb_state) (c : Z) :
  c <> CMD_TOOL_ACK \/ backup (usb_rxbuffer st) = true ->
  (c =? CMD_TOOL_ACK) && negb (backup (usb_rxbuffer st)) = false.
Proof.
  intros [Hc | Hb].
  - apply Z.eqb_neq in Hc. rewrite Hc. reflexivity.
  - rewrite Hb. apply andb_false_r.
Qed.

Lemma byte_claimed (st : usb_state) (c : Z) :
  c <> CMD_TOOL_ACK \/ backup (usb_rxbuffer st) = true ->
  enqueue_realtime_command c = true ->
  usb_execute_realtime_byte st c = st.
Proof.
  intros Hs Hc. unfold usb_execute_realtime_byte.
  rewrite (byte_not_signal st c Hs), Hc. reflexivity.
Qed.

Lemma byte_full (st : usb_state) (c : Z) :
  c <> CMD_TOOL_ACK \/ backup (usb_rxbuffer st) = true ->
  enqueue_realtime_command c = false ->
  Z.land (head (usb_rxbuffer st) + 1) (RX_BUFFER_SIZE - 1)
  = tail (usb_rxbuffer st) ->
  usb_execute_realtime_byte st c
  = set_rxbuffer st
      (mk_rx (head (usb_rxbuffer st)) (tail (usb_rxbuffer st)) true
             (backup (usb_rxbuffer st)) (data (usb_rxbuffer st))).
Proof.
  intros Hs Hc Hfull. unfold usb_execute_realtime_byte.
  rewrite (byte_not_signal st c Hs), Hc, Hfull, Z.eqb_refl. reflexivity.
Qed.

(** ** Claims that hold without any assumption on the buffer size *)

(** C1, as amended.  When the pump meets the stream-redirect signal
    [CMD_TOOL_ACK] and no backup is active, then after that character the
    backup slot is a full copy of the primary buffer as it was, the
    backup flag of the primary is set, [tail] has been moved up to the
    unchanged [head], array and overflow flag are untouched, and
    [hal.stream.read] points at the normal reader [usb_serialGetC], not at
    the null reader. *)
Theorem C1_signal_byte_snapshot (st : usb_state) (c : Z) :
  c = CMD_TOOL_ACK ->
  backup (usb_rxbuffer st) = false ->
  let st' := usb_execute_realtime_byte st c in
  usb_rxbackup st' = usb_rxbuffer st /\
  backup (usb_rxbuffer st') = true /\
  tail (usb_rxbuffer st') = head (usb_rxbuffer st') /\
  head (usb_rxbuffer st') = head (usb_rxbuffer st) /\
  data (usb_rxbuffer st') = data (usb_rxbuffer st) /\
  overflow (usb_rxbuffer st') = overflow (usb_rxbuffer st) /\
  hal_stream_read st' = fn_usb_serialGetC.
Proof.
  intros Hc Hb st'. subst st'. rewrite (byte_signal st c Hc Hb). simpl.
  repeat split; reflexivity.
Qed.

(** The loop body in a state where advancing [head] by one gives [tail]:
    on an ordinary character it sets the overflow flag and leaves the
    array, [head], [tail], the backup flag, the backup slot and the reader
    as they were, so that the character is dropped. *)
Lemma full_body_drops_byte (st : usb_state) (c : Z) :
  Z.land (head (usb_rxbuffer st) + 1) (RX_BUFFER_SIZE - 1)
  = tail (usb_rxbuffer st) ->
  ordinary c ->
  let st' := usb_execute_realtime_byte st c in
  overflow (usb_rxbuffer st') = true /\
  data (usb_rxbuffer st') = data (usb_rxbuffer st) /\
  head (usb_rxbuffer st') = head (usb_rxbuffer st) /\
  tail (usb_rxbuffer st') = tail (usb_rxbuffer st) /\
  backup (usb_rxbuffer st') = backup (usb_rxbuffer st) /\
  rx_contents (usb_rxbuffer st') = rx_contents (usb_rxbuffer st) /\
  usb_rxbackup st' = usb_rxbackup st /\
  hal_stream_read st' = hal_stream_read st.
Proof.
  intros Hfull [Hc Hs] st'. subst st'.
  rewrite (byte_full st c (or_introl Hs) Hc Hfull).
  unfold set_rxbuffer. simpl. repeat split; reflexivity.
Qed.

(** C9.  [usb_serialSuspendInput(true)] called twice leaves the state the
    first call left and returns the same value: the null reader is
    installed, and primary buffer and backup slot are those of the
    starting state. *)
Theorem C9_suspend_idempotent (st : usb_state) :
  let r1 := usb_serialSuspendInput true st in
  let r2 := usb_serialSuspendInput true (snd r1) in
  snd r2 = snd r1 /\
  fst r2 = fst r1 /\
  hal_stream_read (snd r1) = fn_serialGetNull /\
  usb_rxbuffer (snd r1) = usb_rxbuffer st /\
  usb_rxbackup (snd r1) = usb_rxbackup st.
Proof. simpl. repeat split; reflexivity. Qed.

(** C10.  [usb_serialRxCancel] changes nothing but [head], [tail] and the
    array cell at the old [head]: the overflow flag, the backup flag, the
    backup slot, the reader and every other array cell are as before,
    the new [tail] is the old [head] and the cell there holds
    [CMD_RESET] when the index is inside the array.  In particular an
    overflow flag that is set stays set; [usb_serialRxFlush] clears it. *)
Theorem C10_cancel_frame (st : usb_state) :
  let rb := usb_rxbuffer st in
  let st' := usb_serialRxCancel st in
  overflow (usb_rxbuffer st') = overflow rb /\
  backup (usb_rxbuffer st') = backup rb /\
  usb_rxbackup st' = usb_rxbackup st /\
  hal_stream_read st' = hal_stream_read st /\
  tail (usb_rxbuffer st') = head rb /\
  length (data (usb_rxbuffer st')) = length (data rb) /\
  (forall i : nat, i <> Z.to_nat (head rb) ->
     data (usb_rxbuffer st') !! i = data rb !! i) /\
  (forall i : nat, i = Z.to_nat (head rb) -> (i < length (data rb))%nat ->
     data (usb_rxbuffer st') !! i = Some CMD_RESET) /\
  overflow (usb_rxbuffer (usb_serialRxFlush st')) = false.
Proof.
  simpl. repeat split.
  - apply wr_length.
  - intros i Hi. unfold wr. apply list_lookup_insert_ne. congruence.
  - intros i -> Hi. unfold wr. apply list_lookup_insert_eq. exact Hi.
Qed.

Section Ring.

(** From here on [RX_BUFFER_SIZE] is a power of two that fits the 16-bit
    temporaries of the code. *)

Variable rx_bits : Z.
Hypothesis rx_bits_range : 0 <= rx_bits <= 16.
Hypothesis RX_pow2 : RX_BUFFER_SIZE = 2 ^ rx_bits.

(** ** Index arithmetic *)

Lemma RX_positive : 0 < RX_BUFFER_SIZE.
Proof. rewrite RX_pow2. apply Z.pow_pos_nonneg; lia. Qed.

Lemma RX_fits_uint16 : RX_BUFFER_SIZE <= 65536.
Proof.
  rewrite RX_pow2. change 65536 with (2 ^ 16).
  apply Z.pow_le_mono_r; lia.
Qed.

Lemma land_mask (x : Z) :
  Z.land x (RX_BUFFER_SIZE - 1) = x mod RX_BUFFER_SIZE.
Proof.
  rewrite RX_pow2.
  replace (2 ^ rx_bits - 1) with (Z.ones rx_bits)
    by (rewrite Z.ones_equiv; lia).
  apply Z.land_ones. lia.
Qed.

Lemma next_cases (h : Z) :
  0 <= h < RX_BUFFER_SIZE ->
  (h + 1 < RX_BUFFER_SIZE /\ (h + 1) mod RX_BUFFER_SIZE = h + 1) \/
  (h + 1 = RX_BUFFER_SIZE /\ (h + 1) mod RX_BUFFER_SIZE = 0).
Proof.
  intros Hh. destruct (Z.eq_dec (h + 1) RX_BUFFER_SIZE) as [E | E].
  - right. split; [exact E |]. rewrite E. apply Z.mod_same. lia.
  - left. split; [lia |]. apply Z.mod_small. lia.
Qed.

Lemma count_cases (h t : Z) :
  0 <= h < RX_BUFFER_SIZE -> 0 <= t < RX_BUFFER_SIZE ->
  (t <= h /\ BUFCOUNT h t RX_BUFFER_SIZE = h - t) \/
  (h < t /\ BUFCOUNT h t RX_BUFFER_SIZE = h - t + RX_BUFFER_SIZE).
Proof.
  intros Hh Ht. unfold BUFCOUNT.
  destruct (Z_le_gt_dec t h) as [L | G].
  - left. split; [exact L |]. apply Z.mod_small. lia.
  - right. split; [lia |]. symmetry.
    apply (Z.mod_unique_pos (h - t) RX_BUFFER_SIZE (-1)); lia.
Qed.

Lemma index_cases (t k : Z) :
  0 <= t < RX_BUFFER_SIZE -> 0 <= k < RX_BUFFER_SIZE ->
  (t + k < RX_BUFFER_SIZE /\ (t + k) mod RX_BUFFER_SIZE = t + k) \/
  (RX_BUFFER_SIZE <= t + k /\
   (t + k) mod RX_BUFFER_SIZE = t + k - RX_BUFFER_SIZE).
Proof.
  intros Ht Hk. destruct (Z_lt_le_dec (t + k) RX_BUFFER_SIZE) as [L | G].
  - left. split; [exact L |]. apply Z.mod_small. lia.
  - right. split; [exact G |]. symmetry.
    apply (Z.mod_unique_pos (t + k) RX_BUFFER_SIZE 1); lia.
Qed.

Lemma uint16_index (t : Z) : 0 <= t < RX_BUFFER_SIZE -> uint16 t = t.
Proof.
  intros Ht. pose proof RX_fits_uint16. unfold uint16.
  apply Z.mod_small. lia.
Qed.

(** The tail computed by [usb_serialGetC], wrap of the 16-bit temporary
    included. *)
Lemma getc_next_tail (t : Z) :
  0 <= t < RX_BUFFER_SIZE ->
  Z.land (uint16 (uint16 t + 1)) (RX_BUFFER_SIZE - 1)
  = (t + 1) mod RX_BUFFER_SIZE.
Proof.
  intros Ht. pose proof RX_fits_uint16 as Hle.
  rewrite (uint16_index t Ht), land_mask. unfold uint16.
  destruct (Z.eq_dec (t + 1) 65536) as [E | E].
  - assert (RX_BUFFER_SIZE = 65536) as EN by lia.
    rewrite E, EN. reflexivity.
  - rewrite (Z.mod_small (t + 1) 65536) by lia. reflexivity.
Qed.

(** ** The window between [tail] and [head] *)

Lemma contents_length (rb : stream_rx_buffer_t) :
  length (rx_contents rb)
  = Z.to_nat (BUFCOUNT (head rb) (tail rb) RX_BUFFER_SIZE).
Proof. unfold rx_contents. rewrite length_map, length_seq. reflexivity. Qed.

Lemma contents_empty (rb : stream_rx_buffer_t) :
  head rb = tail rb -> rx_contents rb = [].
Proof.
  intros E. unfold rx_contents, BUFCOUNT.
  rewrite E, Z.sub_diag, Z.mod_0_l by (pose proof RX_positive; lia).
  reflexivity.
Qed.

Lemma contents_nonempty (rb : stream_rx_buffer_t) :
  rx_wf rb -> head rb <> tail rb -> rx_contents rb <> [].
Proof.
  intros (Hh & Ht & _) Hne E.
  apply (f_equal (@length Z)) in E. rewrite contents_length in E.
  destruct (count_cases _ _ Hh Ht) as [[? C] | [? C]];
    rewrite C in E; simpl in E; lia.
Qed.

(** Storing at [head] and advancing it appends to the window. *)
Lemma contents_push (rb : stream_rx_buffer_t) (c : Z) (o b : bool) :
  rx_wf rb ->
  (head rb + 1) mod RX_BUFFER_SIZE <> tail rb ->
  rx_contents (mk_rx ((head rb + 1) mod RX_BUFFER_SIZE) (tail rb) o b
                     (wr (data rb) (head rb) c))
  = rx_contents rb ++ [c].
Proof.
  intros (Hh & Ht & Hlen) Hfree. unfold rx_contents. simpl.
  set (n := BUFCOUNT (head rb) (tail rb) RX_BUFFER_SIZE).
  assert (0 <= n < RX_BUFFER_SIZE - 1 /\
          (tail rb + n) mod RX_BUFFER_SIZE = head rb /\
          BUFCOUNT ((head rb + 1) mod RX_BUFFER_SIZE) (tail rb)
                   RX_BUFFER_SIZE = n + 1) as (Hn & Hat & Hcnt).
  { subst n.
    pose proof (next_cases _ Hh) as N1.
    pose proof (count_cases _ _ Hh Ht) as C1.
    assert (0 <= (head rb + 1) mod RX_BUFFER_SIZE < RX_BUFFER_SIZE) as Hh1
      by (apply Z.mod_pos_bound; lia).
    pose proof (count_cases _ _ Hh1 Ht) as C2.
    assert (0 <= BUFCOUNT (head rb) (tail rb) RX_BUFFER_SIZE
            < RX_BUFFER_SIZE) as Hn
      by (apply Z.mod_pos_bound; lia).
    pose proof (index_cases _ _ Ht Hn) as I1.
    lia. }
  rewrite Hcnt.
  replace (Z.to_nat (n + 1)) with (S (Z.to_nat n)) by lia.
  rewrite seq_S, map_app. simpl. f_equal.
  - apply map_ext_in. intros k Hk. apply in_seq in Hk.
    apply rd_wr_other.
    + lia.
    + apply Z.mod_pos_bound. lia.
    + intros E.
      assert (0 <= Z.of_nat k < RX_BUFFER_SIZE) as Hk' by lia.
      assert (0 <= n < RX_BUFFER_SIZE) as Hn' by lia.
      pose proof (index_cases _ _ Ht Hk') as I1.
      pose proof (index_cases _ _ Ht Hn') as I2.
      lia.
  - rewrite Z2Nat.id by lia. rewrite Hat.
    rewrite rd_wr_same by lia. reflexivity.
Qed.

(** Advancing [tail] removes the oldest character of the window. *)
Lemma contents_pop (rb : stream_rx_buffer_t) (o b : bool) :
  rx_wf rb ->
  head rb <> tail rb ->
  rx_contents rb
  = rd (data rb) (tail rb)
    :: rx_contents (mk_rx (head rb) ((tail rb + 1) mod RX_BUFFER_SIZE) o b
                          (data rb)).
Proof.
  intros (Hh & Ht & Hlen) Hne. unfold rx_contents. simpl.
  set (n := BUFCOUNT (head rb) (tail rb) RX_BUFFER_SIZE).
  assert (0 < n /\
          BUFCOUNT (head rb) ((tail rb + 1) mod RX_BUFFER_SIZE)
                   RX_BUFFER_SIZE = n - 1) as (Hn & Hcnt).
  { subst n.
    pose proof (next_cases _ Ht) as N1.
    pose proof (count_cases _ _ Hh Ht) as C1.
    assert (0 <= (tail rb + 1) mod RX_BUFFER_SIZE < RX_BUFFER_SIZE) as Ht1
      by (apply Z.mod_pos_bound; lia).
    pose proof (count_cases _ _ Hh Ht1) as C2.
    lia. }
  rewrite Hcnt.
  replace (Z.to_nat n) with (S (Z.to_nat (n - 1))) by lia.
  simpl. f_equal.
  - rewrite Z.add_0_r, Z.mod_small by lia. reflexivity.
  - rewrite <- seq_shift, map_map. apply map_ext. intros k.
    f_equal. rewrite Zplus_mod_idemp_l. f_equal. lia.
Qed.

(** ** The pump loop body: all four ways *)

Lemma byte_push (st : usb_state) (c : Z) :
  c <> CMD_TOOL_ACK \/ backup (usb_rxbuffer st) = true ->
  enqueue_realtime_command c = false ->
  (head (usb_rxbuffer st) + 1) mod RX_BUFFER_SIZE
  <> tail (usb_rxbuffer st) ->
  usb_execute_realtime_byte st c
  = set_rxbuffer st
      (mk_rx ((head (usb_rxbuffer st) + 1) mod RX_BUFFER_SIZE)
             (tail (usb_rxbuffer st)) (overflow (usb_rxbuffer st))
             (backup (usb_rxbuffer st))
             (wr (data (usb_rxbuffer st)) (head (usb_rxbuffer st)) c)).
Proof.
  intros Hs Hc Hfree. unfold usb_execute_realtime_byte.
  rewrite (byte_not_signal st c Hs), Hc, land_mask.
  apply Z.eqb_neq in Hfree. rewrite Hfree. reflexivity.
Qed.

(** The pump loop body either takes the signal branch, or leaves the
    state alone, or flags overflow, or stores the character. *)
Lemma byte_cases (st : usb_state) (c : Z) :
  let rb := usb_rxbuffer st in
  (c = CMD_TOOL_ACK /\ backup rb = false /\
   usb_execute_realtime_byte st c
   = mk_usb (mk_rx (head rb) (head rb) (overflow rb) true (data rb))
            rb fn_usb_serialGetC) \/
  (enqueue_realtime_command c = true /\
   usb_execute_realtime_byte st c = st) \/
  (enqueue_realtime_command c = false /\
   (head rb + 1) mod RX_BUFFER_SIZE = tail rb /\
   usb_execute_realtime_byte st c
   = set_rxbuffer st (mk_rx (head rb) (tail rb) true (backup rb) (data rb)))
  \/
  (enqueue_realtime_command c = false /\
   (head rb + 1) mod RX_BUFFER_SIZE <> tail rb /\
   usb_execute_realtime_byte st c
   = set_rxbuffer st
       (mk_rx ((head rb + 1) mod RX_BUFFER_SIZE) (tail rb) (overflow rb)
              (backup rb) (wr (data rb) (head rb) c))).
Proof.
  intros rb. subst rb.
  destruct (Z.eq_dec c CMD_TOOL_ACK) as [Ec | Ec];
    [destruct (bool_dec (backup (usb_rxbuffer st)) true) as [Eb | Eb];
     [| apply not_true_is_false in Eb] |].
  2: { left. split; [exact Ec |]. split; [exact Eb |].
       apply byte_signal; assumption. }
  all: assert (c <> CMD_TOOL_ACK \/ backup (usb_rxbuffer st) = true)
         as Hs by (first [right; assumption | left; assumption]).
  all: right; destruct (enqueue_realtime_command c) eqn:Eq;
    [left; split; [reflexivity | apply byte_claimed; assumption] |].
  all: right;
    destruct (Z.eq_dec ((head (usb_rxbuffer st) + 1) mod RX_BUFFER_SIZE)
                       (tail (usb_rxbuffer st))) as [Ef | Ef];
    [left; split; [reflexivity |]; split; [exact Ef |];
     apply byte_full; [assumption | assumption | ];
     rewrite land_mask; exact Ef
    | right; split; [reflexivity |]; split; [exact Ef |];
      apply byte_push; assumption].
Qed.

Lemma getc_empty (st : usb_state) :
  rx_wf (usb_rxbuffer st) ->
  head (usb_rxbuffer st) = tail (usb_rxbuffer st) ->
  usb_serialGetC st = (-1, st).
Proof.
  intros (Hh & Ht & _) E. unfold usb_serialGetC.
  rewrite (uint16_index _ Ht), <- E, Z.eqb_refl. reflexivity.
Qed.

Lemma getc_some (st : usb_state) :
  rx_wf (usb_rxbuffer st) ->
  head (usb_rxbuffer st) <> tail (usb_rxbuffer st) ->
  usb_serialGetC st
  = (rd (data (usb_rxbuffer st)) (tail (usb_rxbuffer st)),
     set_rxbuffer st
       (mk_rx (head (usb_rxbuffer st))
              ((tail (usb_rxbuffer st) + 1) mod RX_BUFFER_SIZE)
              (overflow (usb_rxbuffer st)) (backup (usb_rxbuffer st))
              (data (usb_rxbuffer st)))).
Proof.
  intros (Hh & Ht & _) Hne. unfold usb_serialGetC.
  rewrite (getc_next_tail _ Ht), (uint16_index _ Ht).
  assert ((tail (usb_rxbuffer st) =? head (usb_rxbuffer st)) = false) as ->
    by (apply Z.eqb_neq; congruence).
  reflexivity.
Qed.

(** ** Preservation of the index bounds *)

Lemma wf_next_head (rb : stream_rx_buffer_t) (t : Z) (o b : bool)
      (d : list Z) :
  0 <= t < RX_BUFFER_SIZE -> Z.of_nat (length d) = RX_BUFFER_SIZE ->
  rx_wf (mk_rx ((head rb + 1) mod RX_BUFFER_SIZE) t o b d).
Proof.
  intros Ht Hd. pose proof RX_positive.
  repeat split; simpl; try lia; apply Z.mod_pos_bound; lia.
Qed.

Lemma inv_init : usb_inv usb_init.
Proof.
  pose proof RX_positive.
  unfold usb_inv, usb_init, rx_wf, rx_zero; simpl.
  rewrite length_replicate. lia.
Qed.

Lemma inv_byte (st : usb_state) (c : Z) :
  usb_inv st -> usb_inv (usb_execute_realtime_byte st c).
Proof.
  intros [Hp Hb]. pose proof Hp as (Hh & Ht & Hd).
  destruct (byte_cases st c)
    as [(_ & _ & E) | [(_ & E) | [(_ & _ & E) | (_ & _ & E)]]];
    rewrite E; unfold usb_inv, set_rxbuffer; simpl.
  - split; [| exact Hp]. repeat split; simpl; lia.
  - split; assumption.
  - split; [| exact Hb]. repeat split; simpl; lia.
  - split; [| exact Hb]. apply wf_next_head; [lia |].
    rewrite wr_length. exact Hd.
Qed.

Lemma inv_loop (bs : list Z) (st : usb_state) :
  usb_inv st -> usb_inv (usb_execute_realtime_loop st bs).
Proof.
  revert st. induction bs as [| c bs IH]; intros st Hinv; simpl.
  - exact Hinv.
  - apply IH, inv_byte, Hinv.
Qed.

Lemma inv_getc (st : usb_state) :
  usb_inv st -> usb_inv (snd (usb_serialGetC st)).
Proof.
  intros [Hp Hb]. pose proof Hp as (Hh & Ht & Hd).
  destruct (Z.eq_dec (head (usb_rxbuffer st)) (tail (usb_rxbuffer st)))
    as [E | E].
  - rewrite (getc_empty st Hp E). split; assumption.
  - rewrite (getc_some st Hp E). split; [| exact Hb]. simpl.
    pose proof RX_positive.
    repeat split; simpl; try lia; apply Z.mod_pos_bound; lia.
Qed.

Lemma inv_flush (st : usb_state) :
  usb_inv st -> usb_inv (usb_serialRxFlush st).
Proof.
  intros [Hp Hb]. pose proof Hp as (Hh & Ht & Hd). pose proof RX_positive.
  split; [| exact Hb]. repeat split; simpl; lia.
Qed.

Lemma inv_cancel (st : usb_state) :
  usb_inv st -> usb_inv (usb_serialRxCancel st).
Proof.
  intros [Hp Hb]. pose proof Hp as (Hh & Ht & Hd).
  split; [| exact Hb]. unfold usb_serialRxCancel, set_rxbuffer. simpl.
  rewrite land_mask. apply wf_next_head; [lia |].
  rewrite wr_length. exact Hd.
Qed.

Lemma inv_suspend (b : bool) (st : usb_state) :
  usb_inv st -> usb_inv (snd (usb_serialSuspendInput b st)).
Proof.
  intros [Hp Hb]. unfold usb_serialSuspendInput. simpl.
  destruct b; [split; assumption |].
  destruct (backup (usb_rxbuffer st)); split; assumption.
Qed.

Lemma inv_run_op (o : op) (st : usb_state) :
  usb_inv st -> usb_inv (snd (run_op o st)).
Proof.
  intros Hinv. destruct o as [c | | | | | b]; simpl.
  - apply inv_byte, Hinv.
  - unfold hal_read. destruct (hal_stream_read st).
    + pose proof (inv_getc st Hinv) as H.
      destruct (usb_serialGetC st). exact H.
    + exact Hinv.
  - pose proof (inv_getc st Hinv) as H.
    destruct (usb_serialGetC st). exact H.
  - apply inv_flush, Hinv.
  - apply inv_cancel, Hinv.
  - apply inv_suspend, Hinv.
Qed.

Lemma inv_run (tr : list op) (st : usb_state) :
  usb_inv st -> usb_inv (snd (run tr st)).
Proof.
  revert st. induction tr as [| o tr IH]; intros st Hinv; simpl.
  - exact Hinv.
  - pose proof (inv_run_op o st Hinv) as H1.
    destruct (run_op o st) as [r st1]. simpl in H1.
    pose proof (IH st1 H1) as H2.
    destruct (run tr st1) as [vs st2]. exact H2.
Qed.

(** ** Pushing and popping in terms of the window *)

Lemma contents_bound (rb : stream_rx_buffer_t) :
  rx_wf rb -> Z.of_nat (length (rx_contents rb)) <= RX_BUFFER_SIZE - 1.
Proof.
  intros (Hh & Ht & _). rewrite contents_length.
  pose proof (count_cases _ _ Hh Ht). lia.
Qed.

(** The buffer is full exactly when the window holds N-1 characters. *)
Lemma full_iff (rb : stream_rx_buffer_t) :
  rx_wf rb ->
  (head rb + 1) mod RX_BUFFER_SIZE = tail rb <->
  Z.of_nat (length (rx_contents rb)) = RX_BUFFER_SIZE - 1.
Proof.
  intros (Hh & Ht & _). rewrite contents_length.
  pose proof (count_cases _ _ Hh Ht).
  pose proof (next_cases _ Hh). lia.
Qed.

Lemma byte_ordinary_push (st : usb_state) (c : Z) :
  rx_wf (usb_rxbuffer st) -> ordinary c ->
  Z.of_nat (length (rx_contents (usb_rxbuffer st))) < RX_BUFFER_SIZE - 1 ->
  let st' := usb_execute_realtime_byte st c in
  rx_wf (usb_rxbuffer st') /\
  rx_contents (usb_rxbuffer st') = rx_contents (usb_rxbuffer st) ++ [c] /\
  overflow (usb_rxbuffer st') = overflow (usb_rxbuffer st) /\
  backup (usb_rxbuffer st') = backup (usb_rxbuffer st) /\
  usb_rxbackup st' = usb_rxbackup st /\
  hal_stream_read st' = hal_stream_read st.
Proof.
  intros Hwf [Hc Hs] Hroom. simpl.
  assert ((head (usb_rxbuffer st) + 1) mod RX_BUFFER_SIZE
          <> tail (usb_rxbuffer st)) as Hfree.
  { intros E. apply (full_iff _ Hwf) in E. lia. }
  rewrite (byte_push st c (or_introl Hs) Hc Hfree).
  unfold set_rxbuffer. simpl.
  split.
  { destruct Hwf as (Hh & Ht & Hd).
    apply wf_next_head; [exact Ht |]. rewrite wr_length. exact Hd. }
  split; [apply contents_push; assumption |].
  repeat split; reflexivity.
Qed.

Lemma loop_ordinary (bs : list Z) (st : usb_state) :
  rx_wf (usb_rxbuffer st) -> Forall ordinary bs ->
  Z.of_nat (length (rx_contents (usb_rxbuffer st)) + length bs)
  <= RX_BUFFER_SIZE - 1 ->
  let st' := usb_execute_realtime_loop st bs in
  rx_wf (usb_rxbuffer st') /\
  rx_contents (usb_rxbuffer st') = rx_contents (usb_rxbuffer st) ++ bs /\
  overflow (usb_rxbuffer st') = overflow (usb_rxbuffer st) /\
  backup (usb_rxbuffer st') = backup (usb_rxbuffer st) /\
  usb_rxbackup st' = usb_rxbackup st /\
  hal_stream_read st' = hal_stream_read st.
Proof.
  revert st. induction bs as [| c bs IH]; intros st Hwf Hord Hroom; simpl.
  - rewrite app_nil_r. repeat split; try reflexivity; apply Hwf.
  - inversion Hord as [| ? ? Hc Hbs]; subst. simpl in Hroom.
    destruct (byte_ordinary_push st c Hwf Hc)
      as (W1 & C1 & O1 & B1 & K1 & R1); [lia |].
    destruct (IH (usb_execute_realtime_byte st c) W1 Hbs)
      as (W2 & C2 & O2 & B2 & K2 & R2).
    { rewrite C1, length_app. simpl. lia. }
    split; [exact W2 |].
    split; [rewrite C2, C1, <- app_assoc; reflexivity |].
    repeat split; congruence.
Qed.

(** Reading as many characters as the window holds returns the window
    and empties the buffer. *)
Lemma getc_drain (n : nat) (st : usb_state) :
  rx_wf (usb_rxbuffer st) ->
  n = length (rx_contents (usb_rxbuffer st)) ->
  fst (getc_n n st) = rx_contents (usb_rxbuffer st) /\
  rx_wf (usb_rxbuffer (snd (getc_n n st))) /\
  head (usb_rxbuffer (snd (getc_n n st)))
  = tail (usb_rxbuffer (snd (getc_n n st))).
Proof.
  revert st. induction n as [| n IH]; intros st Hwf Hn.
  - simpl. symmetry in Hn. apply length_zero_iff_nil in Hn.
    split; [congruence |]. split; [exact Hwf |].
    destruct (Z.eq_dec (head (usb_rxbuffer st)) (tail (usb_rxbuffer st)))
      as [E | E]; [exact E |].
    exfalso. exact (contents_nonempty _ Hwf E Hn).
  - assert (head (usb_rxbuffer st) <> tail (usb_rxbuffer st)) as Hne.
    { intros E. rewrite (contents_empty _ E) in Hn. discriminate. }
    simpl. rewrite (getc_some st Hwf Hne).
    rewrite (contents_pop (usb_rxbuffer st)
               (overflow (usb_rxbuffer st)) (backup (usb_rxbuffer st))
               Hwf Hne) in Hn |- *.
    set (st1 := set_rxbuffer st _) in *.
    assert (rx_wf (usb_rxbuffer st1)) as W1.
    { pose proof (inv_getc (mk_usb (usb_rxbuffer st) (usb_rxbuffer st)
                                   (hal_stream_read st))
                           (conj Hwf Hwf)) as [H _].
      rewrite getc_some in H by assumption. exact H. }
    simpl in Hn. injection Hn as Hn.
    destruct (IH st1 W1 Hn) as (F & W & E).
    destruct (getc_n n st1) as [vs st2]. simpl in *.
    split; [rewrite F; reflexivity |]. split; assumption.
Qed.

(** ** Only unclaimed characters sit in the window *)

Lemma clean_byte (inj : bool) (st : usb_state) (c : Z) :
  usb_inv st -> usb_clean inj st ->
  usb_clean inj (usb_execute_realtime_byte st c).
Proof.
  intros [Hp Hb] [Cp Cb].
  destruct (byte_cases st c)
    as [(_ & _ & E) | [(_ & E) | [(_ & _ & E) | (Hc & Hfree & E)]]];
    rewrite E; unfold usb_clean, rx_clean, set_rxbuffer; simpl.
  - split; [| exact Cp]. rewrite contents_empty by reflexivity. constructor.
  - split; assumption.
  - split; [exact Cp | exact Cb].
  - split; [| exact Cb]. rewrite contents_push by assumption.
    apply Forall_app. split; [exact Cp |].
    constructor; [left; exact Hc | constructor].
Qed.

Lemma clean_getc (inj : bool) (st : usb_state) :
  usb_inv st -> usb_clean inj st ->
  usb_clean inj (snd (usb_serialGetC st)) /\
  (fst (usb_serialGetC st) = -1 \/ unclaimed inj (fst (usb_serialGetC st))).
Proof.
  intros [Hp Hb] [Cp Cb].
  destruct (Z.eq_dec (head (usb_rxbuffer st)) (tail (usb_rxbuffer st)))
    as [E | E].
  - rewrite (getc_empty st Hp E). simpl.
    split; [split; assumption | left; reflexivity].
  - rewrite (getc_some st Hp E). simpl.
    unfold rx_clean in Cp.
    rewrite (contents_pop (usb_rxbuffer st)
               (overflow (usb_rxbuffer st)) (backup (usb_rxbuffer st))
               Hp E) in Cp.
    inversion Cp as [| ? ? Hv Hrest]; subst.
    split; [split; [exact Hrest | exact Cb] | right; exact Hv].
Qed.

Lemma cancel_contents (st : usb_state) :
  rx_wf (usb_rxbuffer st) ->
  rx_contents (usb_rxbuffer (usb_serialRxCancel st)) = [CMD_RESET] \/
  rx_contents (usb_rxbuffer (usb_serialRxCancel st)) = [].
Proof.
  intros (Hh & Ht & Hd). unfold usb_serialRxCancel, set_rxbuffer. simpl.
  rewrite land_mask.
  destruct (Z.eq_dec ((head (usb_rxbuffer st) + 1) mod RX_BUFFER_SIZE)
                     (head (usb_rxbuffer st))) as [E | E].
  - right. apply contents_empty. simpl. exact E.
  - left.
    pose (rb0 := mk_rx (head (usb_rxbuffer st)) (head (usb_rxbuffer st))
                       (overflow (usb_rxbuffer st))
                       (backup (usb_rxbuffer st)) (data (usb_rxbuffer st))).
    assert (rx_wf rb0) as W0 by (repeat split; simpl; lia).
    pose proof (contents_push rb0 CMD_RESET (overflow (usb_rxbuffer st))
                  (backup (usb_rxbuffer st)) W0 E) as P.
    simpl in P. rewrite P.
    rewrite (contents_empty rb0) by reflexivity. reflexivity.
Qed.

Lemma clean_run_op (inj : bool) (o : op) (st : usb_state) :
  usb_inv st -> usb_clean inj st ->
  (is_cancel o = true -> inj = true) ->
  usb_clean inj (snd (run_op o st)) /\
  (forall v, fst (run_op o st) = Some v -> v = -1 \/ unclaimed inj v).
Proof.
  intros Hinv Hcl Hinj. destruct o as [c | | | | | b]; simpl.
  - split; [apply clean_byte; assumption | discriminate].
  - unfold hal_read. destruct (hal_stream_read st).
    + pose proof (clean_getc inj st Hinv Hcl) as [H1 H2].
      destruct (usb_serialGetC st) as [v st1]. simpl in *.
      split; [exact H1 |]. intros v' [= <-]. exact H2.
    + simpl. split; [exact Hcl |]. intros v' [= <-]. left; reflexivity.
  - pose proof (clean_getc inj st Hinv Hcl) as [H1 H2].
    destruct (usb_serialGetC st) as [v st1]. simpl in *.
    split; [exact H1 |]. intros v' [= <-]. exact H2.
  - split; [| discriminate]. destruct Hcl as [_ Cb].
    split; [| exact Cb]. unfold rx_clean. simpl.
    rewrite contents_empty by reflexivity. constructor.
  - split; [| discriminate]. destruct Hcl as [_ Cb].
    split; [| exact Cb]. unfold rx_clean.
    destruct (cancel_contents st (proj1 Hinv)) as [E | E]; rewrite E.
    + constructor; [| constructor]. right. split; [| reflexivity].
      apply Hinj. reflexivity.
    + constructor.
  - split; [| discriminate]. destruct Hcl as [Cp Cb].
    unfold usb_serialSuspendInput. simpl.
    destruct b; [split; assumption |].
    destruct (backup (usb_rxbuffer st)); split; assumption.
Qed.

Lemma clean_run (inj : bool) (tr : list op) (st : usb_state) :
  usb_inv st -> usb_clean inj st ->
  (existsb is_cancel tr = true -> inj = true) ->
  Forall (fun v => v = -1 \/ unclaimed inj v) (fst (run tr st)).
Proof.
  revert st. induction tr as [| o tr IH]; intros st Hinv Hcl Hinj; simpl.
  - constructor.
  - simpl in Hinj.
    assert (is_cancel o = true -> inj = true) as Ho
      by (intros E; apply Hinj; rewrite E; reflexivity).
    assert (existsb is_cancel tr = true -> inj = true) as Htr
      by (intros E; apply Hinj; rewrite E; apply orb_true_r).
    pose proof (inv_run_op o st Hinv) as I1.
    destruct (clean_run_op inj o st Hinv Hcl Ho) as [C1 V1].
    destruct (run_op o st) as [r st1]. simpl in *.
    pose proof (IH st1 I1 C1 Htr) as F.
    destruct (run tr st1) as [vs st2]. simpl in *.
    destruct r as [v |]; [| exact F].
    constructor; [apply V1; reflexivity | exact F].
Qed.

Lemma clean_init (inj : bool) : usb_clean inj usb_init.
Proof.
  split; unfold rx_clean; rewrite contents_empty by reflexivity;
    constructor.
Qed.

(** ** The snapshot between the signal and the resume *)

Lemma snapshot_kept_op (o : op) (st : usb_state) :
  is_resume o = false ->
  backup (usb_rxbuffer st) = true ->
  usb_rxbackup (snd (run_op o st)) = usb_rxbackup st /\
  backup (usb_rxbuffer (snd (run_op o st))) = true.
Proof.
  intros Ho Hb. destruct o as [c | | | | | b]; simpl.
  - destruct (byte_cases st c)
      as [(_ & F & _) | [(_ & E) | [(_ & _ & E) | (_ & _ & E)]]];
      [congruence | rewrite E .. ]; simpl; split; auto.
  - unfold hal_read, usb_serialGetC, serialGetNull.
    destruct (hal_stream_read st); [| split; auto].
    destruct (_ =? _); simpl; split; auto.
  - unfold usb_serialGetC. destruct (_ =? _); simpl; split; auto.
  - split; auto.
  - split; auto.
  - destruct b; [| discriminate]. split; auto.
Qed.

Lemma snapshot_kept (tr : list op) (st : usb_state) :
  forallb (fun o => negb (is_resume o)) tr = true ->
  backup (usb_rxbuffer st) = true ->
  usb_rxbackup (snd (run tr st)) = usb_rxbackup st /\
  backup (usb_rxbuffer (snd (run tr st))) = true.
Proof.
  revert st. induction tr as [| o tr IH]; intros st Htr Hb; simpl.
  - split; [reflexivity | exact Hb].
  - simpl in Htr. apply andb_true_iff in Htr as [Ho Htr].
    apply negb_true_iff in Ho.
    destruct (snapshot_kept_op o st Ho Hb) as [K1 B1].
    destruct (run_op o st) as [r st1]. simpl in *.
    destruct (IH st1 Htr B1) as [K2 B2].
    destruct (run tr st1) as [vs st2]. simpl in *.
    split; [congruence | exact B2].
Qed.

(** The pump changes the reader only on the signal branch. *)
Lemma loop_keeps_reader (bs : list Z) (st : usb_state) :
  backup (usb_rxbuffer st) = true \/ ~ In CMD_TOOL_ACK bs ->
  hal_stream_read (usb_execute_realtime_loop st bs) = hal_stream_read st.
Proof.
  revert st. induction bs as [| c bs IH]; intros st Hs; simpl.
  - reflexivity.
  - assert (c <> CMD_TOOL_ACK \/ backup (usb_rxbuffer st) = true) as Hc.
    { destruct Hs as [Hb | Hn]; [right; exact Hb |].
      left. intros E. apply Hn. left. exact E. }
    assert (hal_stream_read (usb_execute_realtime_byte st c)
            = hal_stream_read st /\
            backup (usb_rxbuffer (usb_execute_realtime_byte st c))
            = backup (usb_rxbuffer st)) as [R B].
    { destruct (byte_cases st c)
        as [(F1 & F2 & _) | [(_ & E) | [(_ & _ & E) | (_ & _ & E)]]];
        [destruct Hc; congruence | rewrite E .. ]; simpl; split; auto. }
    rewrite IH, R; [reflexivity |].
    destruct Hs as [Hb | Hn]; [left; congruence |].
    right. intros Hin. apply Hn. right. exact Hin.
Qed.

(** Polling the pump often enough moves ordinary characters that fit
    from the transport into the buffer, exactly as one pass of the loop
    over all of them would. *)
Lemma pump_calls_drain (n : nat) (bs : list Z) (st : usb_state) :
  rx_wf (usb_rxbuffer st) -> Forall ordinary bs ->
  Z.of_nat (length (rx_contents (usb_rxbuffer st)) + length bs)
  <= RX_BUFFER_SIZE - 1 ->
  (length bs <= n)%nat ->
  pump_calls n bs st = ([], usb_execute_realtime_loop st bs).
Proof.
  revert bs st. induction n as [| n IH]; intros bs st Hwf Hord Hroom Hn.
  - destruct bs; [reflexivity | simpl in Hn; lia].
  - simpl. unfold usb_execute_realtime.
    destruct bs as [| b bs'] eqn:Ebs.
    { simpl. destruct n; reflexivity || (apply IH; auto; simpl; lia). }
    rewrite <- Ebs in *.
    assert (0 < Z.of_nat (length bs)) as Hpos by (subst bs; simpl; lia).
    assert ((Z.of_nat (length bs) =? 0) = false) as ->
      by (apply Z.eqb_neq; lia).
    pose proof Hwf as (Hh & Ht & _).
    pose proof RX_fits_uint16 as H16.
    assert (usb_serialRxFree st
            = RX_BUFFER_SIZE - 1
              - Z.of_nat (length (rx_contents (usb_rxbuffer st)))) as Efree.
    { unfold usb_serialRxFree, uint16. rewrite contents_length.
      pose proof (count_cases _ _ Hh Ht).
      rewrite Z2Nat.id by lia. apply Z.mod_small. lia. }
    rewrite Efree.
    set (free := RX_BUFFER_SIZE - 1
                 - Z.of_nat (length (rx_contents (usb_rxbuffer st)))).
    set (k := if Z.of_nat (length bs)
                 >? (if free >? BLOCK_RX_BUFFER_SIZE
                     then BLOCK_RX_BUFFER_SIZE else free)
              then (if free >? BLOCK_RX_BUFFER_SIZE
                    then BLOCK_RX_BUFFER_SIZE else free)
              else Z.of_nat (length bs)).
    assert (0 < k <= Z.of_nat (length bs)) as Hk.
    { subst k. unfold BLOCK_RX_BUFFER_SIZE.
      destruct (free >? 20) eqn:E1;
        [destruct (Z.of_nat (length bs) >? 20) eqn:E2
        | destruct (Z.of_nat (length bs) >? free) eqn:E2];
        rewrite ?Z.gtb_ltb in *;
        try apply Z.ltb_lt in E1; try apply Z.ltb_ge in E1;
        try apply Z.ltb_lt in E2; try apply Z.ltb_ge in E2;
        subst free; lia. }
    rewrite <- (take_drop (Z.to_nat k) bs) in Hord.
    apply Forall_app in Hord as [Htake Hdrop].
    assert (length (take (Z.to_nat k) bs) = Z.to_nat k) as Ltake
      by (rewrite length_take; lia).
    assert (length (drop (Z.to_nat k) bs) = (length bs - Z.to_nat k)%nat)
      as Ldrop by apply length_drop.
    destruct (loop_ordinary (take (Z.to_nat k) bs) st Hwf Htake)
      as (W1 & C1 & _); [lia |].
    rewrite IH; [| exact W1 | exact Hdrop | rewrite C1, length_app; lia | lia].
    f_equal. unfold usb_execute_realtime_loop.
    rewrite <- fold_left_app, take_drop. reflexivity.
Qed.

(** ** Claims on the ring buffer *)

(** C3, as amended.  Let the stream-redirect signal be processed in a
    state with no backup active, followed by any calls other than a
    resume (further pumped characters, reads, flushes, reset injections,
    [usb_serialSuspendInput(true)]).  Then [usb_serialSuspendInput(false)]
    puts the primary buffer back to exactly its state before the signal,
    which has the backup flag clear; it leaves [hal.stream.read] as it
    finds it; it returns true iff the buffer before the signal was not
    empty; and [usb_serialGetC] then returns the characters that were
    waiting before the signal, in order, followed by -1.  Separately,
    [usb_serialSuspendInput(true)] installs the null reader, and as long
    as the null reader is installed and the pump does not take the signal
    branch, [hal.stream.read] returns -1 whatever is pumped. *)
Theorem C3_resume_restores_snapshot (s0 : usb_state) (tr : list op) :
  rx_wf (usb_rxbuffer s0) ->
  backup (usb_rxbuffer s0) = false ->
  forallb (fun o => negb (is_resume o)) tr = true ->
  let s1 := usb_execute_realtime_byte s0 CMD_TOOL_ACK in
  let s2 := snd (run tr s1) in
  let pending := fst (usb_serialSuspendInput false s2) in
  let s3 := snd (usb_serialSuspendInput false s2) in
  let before := rx_contents (usb_rxbuffer s0) in
  let s4 := snd (getc_n (length before) s3) in
  usb_rxbuffer s3 = usb_rxbuffer s0 /\
  backup (usb_rxbuffer s3) = false /\
  hal_stream_read s3 = hal_stream_read s2 /\
  (pending = true <-> before <> []) /\
  fst (getc_n (length before) s3) = before /\
  usb_serialGetC s4 = (-1, s4) /\
  (forall st, hal_stream_read (snd (usb_serialSuspendInput true st))
              = fn_serialGetNull) /\
  (forall st bs,
      hal_stream_read st = fn_serialGetNull ->
      backup (usb_rxbuffer st) = true \/ ~ In CMD_TOOL_ACK bs ->
      fst (hal_read (usb_execute_realtime_loop st bs)) = -1).
Proof.
  intros Hwf Hb Htr s1 s2 pending s3 before s4.
  assert (usb_rxbackup s1 = usb_rxbuffer s0 /\
          backup (usb_rxbuffer s1) = true) as [K1 B1].
  { subst s1. rewrite (byte_signal s0 _ eq_refl Hb). simpl. auto. }
  destruct (snapshot_kept tr s1 Htr B1) as [K2 B2]. fold s2 in K2, B2.
  assert (usb_rxbuffer s3 = usb_rxbuffer s0) as E3.
  { subst s3. unfold usb_serialSuspendInput. simpl. rewrite B2. simpl.
    congruence. }
  assert (hal_stream_read s3 = hal_stream_read s2) as R3.
  { subst s3. unfold usb_serialSuspendInput. simpl. rewrite B2.
    reflexivity. }
  assert (pending = negb (tail (usb_rxbuffer s0) =? head (usb_rxbuffer s0)))
    as P3.
  { subst pending. unfold usb_serialSuspendInput. simpl. rewrite B2. simpl.
    rewrite K2, K1. reflexivity. }
  assert (rx_wf (usb_rxbuffer s3)) as W3 by (rewrite E3; exact Hwf).
  destruct (getc_drain (length before) s3 W3) as (F & W4 & E4).
  { rewrite E3. reflexivity. }
  split; [exact E3 |]. split; [rewrite E3; exact Hb |].
  split; [exact R3 |]. split.
  { rewrite P3, negb_true_iff, Z.eqb_neq. subst before. split.
    - intros Hne. apply contents_nonempty; [exact Hwf | congruence].
    - intros Hne E. apply Hne. apply contents_empty. congruence. }
  split; [rewrite F, E3; reflexivity |].
  split; [apply getc_empty; assumption |].
  split; [intros st; reflexivity |].
  intros st bs Hnull Hs. unfold hal_read.
  rewrite (loop_keeps_reader bs st Hs), Hnull. reflexivity.
Qed.

(** C5.  Pump at most [RX_BUFFER_SIZE - 1] ordinary characters (not
    claimed by the real-time classifier, not the signal) into an empty
    primary buffer: as many calls of [usb_serialGetC] return exactly
    those characters in the order they arrived, the next call returns -1
    and changes nothing, and the overflow flag was never touched.  The
    pump loop fed with the characters one after the other and
    [usb_execute_realtime] polled until the transport is drained leave the
    same state. *)
Theorem C5_fifo_order (st : usb_state) (bs : list Z) :
  rx_wf (usb_rxbuffer st) ->
  head (usb_rxbuffer st) = tail (usb_rxbuffer st) ->
  Forall ordinary bs ->
  Z.of_nat (length bs) <= RX_BUFFER_SIZE - 1 ->
  let st1 := usb_execute_realtime_loop st bs in
  let r := getc_n (length bs) st1 in
  fst r = bs /\
  usb_serialGetC (snd r) = (-1, snd r) /\
  overflow (usb_rxbuffer st1) = overflow (usb_rxbuffer st) /\
  pump_calls (length bs) bs st = ([], st1).
Proof.
  intros Hwf Hempty Hord Hlen st1 r.
  pose proof (contents_empty _ Hempty) as E0.
  destruct (loop_ordinary bs st Hwf Hord) as (W1 & C1 & O1 & _).
  { rewrite E0. simpl. exact Hlen. }
  fold st1 in W1, C1, O1. rewrite E0 in C1. simpl in C1.
  destruct (getc_drain (length bs) st1 W1) as (F & W2 & E2).
  { rewrite C1. reflexivity. }
  fold r in F, W2, E2.
  split; [rewrite F; exact C1 |].
  split; [apply getc_empty; assumption |].
  split; [exact O1 |].
  apply pump_calls_drain; [assumption | assumption | | lia].
  rewrite E0. simpl. exact Hlen.
Qed.

(** C7.  A character the real-time classifier claims is not stored by
    the pump: array and [head] of the primary buffer are as before.  And
    along every sequence of calls from the initial state, each value a
    read returns is -1, or a character the classifier does not claim, or
    the reset character that [usb_serialRxCancel] put into the buffer
    itself (possible only if the sequence contains such a call); so no
    claimed character that came in through the pump is ever read. *)
Theorem C7_claimed_bytes_never_read :
  (forall st c,
      enqueue_realtime_command c = true ->
      data (usb_rxbuffer (usb_execute_realtime_byte st c))
      = data (usb_rxbuffer st) /\
      head (usb_rxbuffer (usb_execute_realtime_byte st c))
      = head (usb_rxbuffer st)) /\
  (forall tr v,
      In v (fst (run tr usb_init)) ->
      v = -1 \/
      enqueue_realtime_command v = false \/
      (v = CMD_RESET /\ existsb is_cancel tr = true)).
Proof.
  split.
  - intros st c Hc.
    destruct (byte_cases st c)
      as [(_ & _ & E) | [(_ & E) | [(F & _) | (F & _)]]];
      try congruence; rewrite E; simpl; split; reflexivity.
  - intros tr v Hin.
    pose proof (clean_run (existsb is_cancel tr) tr usb_init inv_init
                  (clean_init _) (fun H => H)) as F.
    rewrite Forall_forall in F. apply list_elem_of_In in Hin.
    destruct (F v Hin) as [H | [H | [H1 H2]]]; auto.
Qed.

(** C8.  The initial state has [head] and [tail] of both buffers inside
    [0, RX_BUFFER_SIZE); [usb_serialGetC], the pump (loop body and whole
    function), [usb_serialRxCancel], [usb_serialRxFlush] and
    [usb_serialSuspendInput] keep them there, hence so does every
    sequence of calls; and in such a state the number of buffered
    characters is [(head - tail) mod RX_BUFFER_SIZE], it is at most
    [RX_BUFFER_SIZE - 1], and it is zero iff [head = tail]. *)
Theorem C8_ring_invariant :
  usb_inv usb_init /\
  (forall st, usb_inv st ->
     usb_inv (snd (usb_serialGetC st)) /\
     (forall c, usb_inv (usb_execute_realtime_byte st c)) /\
     (forall usb_in, usb_inv (snd (usb_execute_realtime usb_in st))) /\
     usb_inv (usb_serialRxCancel st) /\
     usb_inv (usb_serialRxFlush st) /\
     (forall b, usb_inv (snd (usb_serialSuspendInput b st)))) /\
  (forall tr, usb_inv (snd (run tr usb_init))) /\
  (forall st, usb_inv st ->
     let rb := usb_rxbuffer st in
     0 <= head rb < RX_BUFFER_SIZE /\
     0 <= tail rb < RX_BUFFER_SIZE /\
     Z.of_nat (length (rx_contents rb))
     = (head rb - tail rb) mod RX_BUFFER_SIZE /\
     usb_serialRxCount st = (head rb - tail rb) mod RX_BUFFER_SIZE /\
     (head rb - tail rb) mod RX_BUFFER_SIZE <= RX_BUFFER_SIZE - 1 /\
     (rx_contents rb = [] <-> head rb = tail rb)).
Proof.
  split; [exact inv_init |]. split; [| split].
  - intros st Hinv.
    split; [apply inv_getc, Hinv |].
    split; [intros c; apply inv_byte, Hinv |].
    split.
    { intros usb_in. unfold usb_execute_realtime.
      destruct (_ =? 0); [exact Hinv |]. simpl. apply inv_loop, Hinv. }
    split; [apply inv_cancel, Hinv |].
    split; [apply inv_flush, Hinv |].
    intros b. apply inv_suspend, Hinv.
  - intros tr. apply inv_run, inv_init.
  - intros st [Hp _] rb. subst rb. pose proof Hp as (Hh & Ht & _).
    pose proof RX_positive as Hpos. pose proof RX_fits_uint16 as H16.
    assert (0 <= (head (usb_rxbuffer st) - tail (usb_rxbuffer st))
                 mod RX_BUFFER_SIZE < RX_BUFFER_SIZE) as Hm
      by (apply Z.mod_pos_bound; lia).
    split; [exact Hh |]. split; [exact Ht |].
    split; [rewrite contents_length; unfold BUFCOUNT; lia |].
    split.
    { unfold usb_serialRxCount, BUFCOUNT, uint16.
      apply Z.mod_small. lia. }
    split; [lia |].
    split.
    + intros E.
      destruct (Z.eq_dec (head (usb_rxbuffer st)) (tail (usb_rxbuffer st)))
        as [E' | E']; [exact E' |].
      exfalso. exact (contents_nonempty _ Hp E' E).
    + apply contents_empty.
Qed.

(** ** Further properties of the receive side *)

Lemma rx_free_eq (st : usb_state) :
  rx_wf (usb_rxbuffer st) ->
  usb_serialRxFree st
  = RX_BUFFER_SIZE - 1 - Z.of_nat (length (rx_contents (usb_rxbuffer st))).
Proof.
  intros (Hh & Ht & _). pose proof RX_fits_uint16 as H16.
  unfold usb_serialRxFree, uint16. rewrite contents_length.
  pose proof (count_cases _ _ Hh Ht).
  rewrite Z2Nat.id by lia. apply Z.mod_small. lia.
Qed.

Lemma rx_count_eq (st : usb_state) :
  rx_wf (usb_rxbuffer st) ->
  usb_serialRxCount st = Z.of_nat (length (rx_contents (usb_rxbuffer st))).
Proof.
  intros (Hh & Ht & _). pose proof RX_fits_uint16 as H16.
  unfold usb_serialRxCount, uint16. rewrite contents_length.
  pose proof (count_cases _ _ Hh Ht).
  rewrite Z2Nat.id by lia. apply Z.mod_small. lia.
Qed.

(** As long as the characters still to come fit, the loop never reaches
    the overflow branch. *)
Lemma loop_within_free (bs : list Z) (st : usb_state) :
  rx_wf (usb_rxbuffer st) ->
  Z.of_nat (length (rx_contents (usb_rxbuffer st)) + length bs)
  <= RX_BUFFER_SIZE - 1 ->
  let st' := usb_execute_realtime_loop st bs in
  rx_wf (usb_rxbuffer st') /\
  overflow (usb_rxbuffer st') = overflow (usb_rxbuffer st) /\
  Z.of_nat (length (rx_contents (usb_rxbuffer st'))) <= RX_BUFFER_SIZE - 1.
Proof.
  revert st. induction bs as [| c bs IH]; intros st Hwf Hroom; simpl.
  - split; [exact Hwf |]. split; [reflexivity |]. simpl in Hroom. lia.
  - simpl in Hroom. pose proof Hwf as (Hh & Ht & Hd).
    assert (rx_wf (usb_rxbuffer (usb_execute_realtime_byte st c)) /\
            overflow (usb_rxbuffer (usb_execute_realtime_byte st c))
            = overflow (usb_rxbuffer st) /\
            (length (rx_contents
                       (usb_rxbuffer (usb_execute_realtime_byte st c)))
             <= S (length (rx_contents (usb_rxbuffer st))))%nat)
      as (W1 & O1 & L1).
    { destruct (byte_cases st c)
        as [(_ & _ & E) | [(_ & E) | [(_ & F & _) | (_ & Hfree & E)]]].
      - rewrite E. simpl. split; [repeat split; simpl; lia |].
        split; [reflexivity |].
        rewrite contents_empty by reflexivity. simpl. lia.
      - rewrite E. split; [exact Hwf |]. split; [reflexivity | lia].
      - apply (full_iff _ Hwf) in F. lia.
      - rewrite E. unfold set_rxbuffer. simpl.
        split; [apply wf_next_head; [exact Ht | rewrite wr_length; exact Hd] |].
        split; [reflexivity |].
        rewrite contents_push by assumption. rewrite length_app. simpl. lia. }
    destruct (IH (usb_execute_realtime_byte st c) W1) as (W2 & O2 & L2);
      [lia |].
    split; [exact W2 |]. split; [congruence | exact L2].
Qed.

(** X1.  One call of [usb_execute_realtime] takes a prefix of what the
    transport holds, at most [BLOCK_RX_BUFFER_SIZE] characters and at most
    as many as the buffer has free, runs the loop over them and leaves the
    rest in the transport; it never changes the overflow flag; and if the
    characters taken are all ordinary, every one of them is in the buffer
    afterwards, behind what was there. *)
Theorem pump_call_never_overflows (usb_in : list Z) (st : usb_state) :
  rx_wf (usb_rxbuffer st) ->
  let r := usb_execute_realtime usb_in st in
  overflow (usb_rxbuffer (snd r)) = overflow (usb_rxbuffer st) /\
  exists taken,
    usb_in = taken ++ fst r /\
    snd r = usb_execute_realtime_loop st taken /\
    Z.of_nat (length taken) <= BLOCK_RX_BUFFER_SIZE /\
    Z.of_nat (length taken) <= usb_serialRxFree st /\
    (Forall ordinary taken ->
     rx_contents (usb_rxbuffer (snd r))
     = rx_contents (usb_rxbuffer st) ++ taken).
Proof.
  intros Hwf r. subst r. unfold usb_execute_realtime.
  pose proof (contents_bound _ Hwf) as Hb.
  destruct (Z.of_nat (length usb_in) =? 0) eqn:E0.
  - simpl. split; [reflexivity |]. exists []. simpl.
    rewrite (rx_free_eq st Hwf), app_nil_r. unfold BLOCK_RX_BUFFER_SIZE.
    repeat split; try reflexivity; lia.
  - apply Z.eqb_neq in E0. rewrite (rx_free_eq st Hwf).
    set (free := RX_BUFFER_SIZE - 1
                 - Z.of_nat (length (rx_contents (usb_rxbuffer st)))).
    set (k := if Z.of_nat (length usb_in)
                 >? (if free >? BLOCK_RX_BUFFER_SIZE
                     then BLOCK_RX_BUFFER_SIZE else free)
              then (if free >? BLOCK_RX_BUFFER_SIZE
                    then BLOCK_RX_BUFFER_SIZE else free)
              else Z.of_nat (length usb_in)).
    assert (0 <= k <= Z.of_nat (length usb_in) /\
            k <= BLOCK_RX_BUFFER_SIZE /\ k <= free) as (Hk & Hk20 & Hkf).
    { subst k. unfold BLOCK_RX_BUFFER_SIZE.
      destruct (free >? 20) eqn:E1;
        [destruct (Z.of_nat (length usb_in) >? 20) eqn:E2
        | destruct (Z.of_nat (length usb_in) >? free) eqn:E2];
        rewrite ?Z.gtb_ltb in *;
        try apply Z.ltb_lt in E1; try apply Z.ltb_ge in E1;
        try apply Z.ltb_lt in E2; try apply Z.ltb_ge in E2;
        subst free; lia. }
    simpl.
    assert (length (take (Z.to_nat k) usb_in) = Z.to_nat k) as Ltake
      by (rewrite length_take; lia).
    destruct (loop_within_free (take (Z.to_nat k) usb_in) st Hwf)
      as (_ & O & _); [subst free; lia |].
    split; [exact O |].
    exists (take (Z.to_nat k) usb_in).
    split; [symmetry; apply take_drop |]. split; [reflexivity |].
    split; [lia |]. split; [lia |].
    intros Hord.
    destruct (loop_ordinary (take (Z.to_nat k) usb_in) st Hwf Hord)
      as (_ & C & _); [subst free; lia | exact C].
Qed.

(** X2.  With a full buffer one call of [usb_execute_realtime] takes
    nothing: the transport keeps all its characters and the state,
    overflow flag included, is as before. *)
Theorem pump_call_full_takes_nothing (usb_in : list Z) (st : usb_state) :
  rx_wf (usb_rxbuffer st) ->
  (head (usb_rxbuffer st) + 1) mod RX_BUFFER_SIZE = tail (usb_rxbuffer st) ->
  usb_execute_realtime usb_in st = (usb_in, st).
Proof.
  intros Hwf Hfull. unfold usb_execute_realtime.
  destruct (Z.of_nat (length usb_in) =? 0) eqn:E0; [reflexivity |].
  apply Z.eqb_neq in E0. rewrite (rx_free_eq st Hwf).
  apply (full_iff _ Hwf) in Hfull. rewrite Hfull.
  replace (RX_BUFFER_SIZE - 1 - (RX_BUFFER_SIZE - 1)) with 0 by lia.
  change (0 >? BLOCK_RX_BUFFER_SIZE) with false. cbv iota.
  assert ((Z.of_nat (length usb_in) >? 0) = true) as ->
    by (rewrite Z.gtb_ltb; apply Z.ltb_lt; lia).
  reflexivity.
Qed.

(** C6, as amended.  In a state with the indices in range where
    advancing [head] by one gives [tail], [usb_execute_realtime] takes no
    character from the transport, whatever it holds: the batch is clamped
    to the free space, which is zero, so the transport keeps every
    character and the state, overflow flag included, is exactly as
    before; nothing is dropped.  The branch of the loop body that flags
    overflow is therefore never entered through the function; applied to
    such a state and an ordinary character, that branch would set the
    overflow flag, store nothing and leave array, [head], [tail], backup
    flag, backup slot and reader as they were. *)
Theorem C6_full_buffer_back_pressure (st : usb_state) (usb_in : list Z)
        (c : Z) :
  rx_wf (usb_rxbuffer st) ->
  Z.land (head (usb_rxbuffer st) + 1) (RX_BUFFER_SIZE - 1)
  = tail (usb_rxbuffer st) ->
  ordinary c ->
  usb_execute_realtime usb_in st = (usb_in, st) /\
  usb_serialRxFree st = 0 /\
  let st' := usb_execute_realtime_byte st c in
  overflow (usb_rxbuffer st') = true /\
  data (usb_rxbuffer st') = data (usb_rxbuffer st) /\
  head (usb_rxbuffer st') = head (usb_rxbuffer st) /\
  tail (usb_rxbuffer st') = tail (usb_rxbuffer st) /\
  backup (usb_rxbuffer st') = backup (usb_rxbuffer st) /\
  rx_contents (usb_rxbuffer st') = rx_contents (usb_rxbuffer st) /\
  usb_rxbackup st' = usb_rxbackup st /\
  hal_stream_read st' = hal_stream_read st.
Proof.
  intros Hwf Hfull Hord.
  assert (usb_serialRxFree st = 0) as Hfree.
  { rewrite (rx_free_eq st Hwf). rewrite land_mask in Hfull.
    apply (full_iff _ Hwf) in Hfull. lia. }
  split; [| split; [exact Hfree | exact (full_body_drops_byte st c Hfull Hord)]].
  unfold usb_execute_realtime.
  destruct (Z.of_nat (length usb_in) =? 0) eqn:E0; [reflexivity |].
  apply Z.eqb_neq in E0. rewrite Hfree.
  change (0 >? BLOCK_RX_BUFFER_SIZE) with false. cbv iota.
  assert ((Z.of_nat (length usb_in) >? 0) = true) as ->
    by (rewrite Z.gtb_ltb; apply Z.ltb_lt; lia).
  reflexivity.
Qed.

(** X3.  In a state with the indices in range [usb_serialRxCount] is the
    number of characters waiting, [usb_serialRxCount] and
    [usb_serialRxFree] add up to [RX_BUFFER_SIZE - 1], and no space is
    free exactly when advancing [head] would reach [tail]. *)
Theorem rx_count_plus_free (st : usb_state) :
  rx_wf (usb_rxbuffer st) ->
  usb_serialRxCount st = Z.of_nat (length (rx_contents (usb_rxbuffer st))) /\
  usb_serialRxCount st + usb_serialRxFree st = RX_BUFFER_SIZE - 1 /\
  0 <= usb_serialRxFree st /\
  (usb_serialRxFree st = 0 <->
   (head (usb_rxbuffer st) + 1) mod RX_BUFFER_SIZE = tail (usb_rxbuffer st)).
Proof.
  intros Hwf. pose proof (contents_bound _ Hwf) as Hb.
  rewrite (rx_count_eq st Hwf), (rx_free_eq st Hwf), (full_iff _ Hwf).
  repeat split; lia.
Qed.

(** X5.  In a ring of at least two cells [usb_serialRxCancel] leaves
    exactly one character waiting, [CMD_RESET], whatever was buffered: the
    next [usb_serialGetC] returns it and the one after returns -1. *)
Theorem cancel_then_read (st : usb_state) :
  2 <= RX_BUFFER_SIZE ->
  rx_wf (usb_rxbuffer st) ->
  let st1 := usb_serialRxCancel st in
  let r1 := usb_serialGetC st1 in
  rx_contents (usb_rxbuffer st1) = [CMD_RESET] /\
  usb_serialRxCount st1 = 1 /\
  fst r1 = CMD_RESET /\
  usb_serialGetC (snd r1) = (-1, snd r1).
Proof.
  intros H2 Hwf st1 r1. pose proof Hwf as (Hh & Ht & Hd).
  assert (rx_wf (usb_rxbuffer st1)) as W1
    by (apply (inv_cancel (mk_usb (usb_rxbuffer st) (usb_rxbuffer st)
                                  (hal_stream_read st)) (conj Hwf Hwf))).
  assert (rx_contents (usb_rxbuffer st1) = [CMD_RESET]) as C1.
  { destruct (cancel_contents st Hwf) as [E | E]; [exact E |].
    exfalso. fold st1 in E.
    assert (head (usb_rxbuffer st1) <> tail (usb_rxbuffer st1)) as Hne.
    { subst st1. unfold usb_serialRxCancel, set_rxbuffer. simpl.
      rewrite land_mask. pose proof (next_cases _ Hh). lia. }
    exact (contents_nonempty _ W1 Hne E). }
  destruct (getc_drain 1 st1 W1) as (F & W2 & E2);
    [rewrite C1; reflexivity |].
  assert (getc_n 1 st1 = ([fst r1], snd r1)) as G
    by (simpl; fold r1; destruct r1; reflexivity).
  rewrite G in F, W2, E2. rewrite C1 in F. cbn [fst snd] in F, W2, E2.
  split; [exact C1 |].
  split; [rewrite (rx_count_eq st1 W1), C1; reflexivity |].
  split; [congruence |].
  apply getc_empty; assumption.
Qed.

(** X6.  [usb_serialGetC] on a buffer that is not empty returns the
    oldest waiting character and leaves the others waiting in their
    order; the count drops by one, and array, [head] and both flags are
    untouched. *)
Theorem getc_takes_oldest (st : usb_state) :
  rx_wf (usb_rxbuffer st) ->
  head (usb_rxbuffer st) <> tail (usb_rxbuffer st) ->
  let r := usb_serialGetC st in
  rx_contents (usb_rxbuffer st) = fst r :: rx_contents (usb_rxbuffer (snd r))
  /\
  usb_serialRxCount (snd r) = usb_serialRxCount st - 1 /\
  data (usb_rxbuffer (snd r)) = data (usb_rxbuffer st) /\
  head (usb_rxbuffer (snd r)) = head (usb_rxbuffer st) /\
  overflow (usb_rxbuffer (snd r)) = overflow (usb_rxbuffer st) /\
  backup (usb_rxbuffer (snd r)) = backup (usb_rxbuffer st).
Proof.
  intros Hwf Hne r. subst r.
  pose proof (inv_getc (mk_usb (usb_rxbuffer st) (usb_rxbuffer st)
                               (hal_stream_read st)) (conj Hwf Hwf))
    as [W1 _].
  pose proof (contents_pop (usb_rxbuffer st) (overflow (usb_rxbuffer st))
                (backup (usb_rxbuffer st)) Hwf Hne) as P.
  rewrite getc_some in W1 by assumption.
  rewrite (getc_some st Hwf Hne). simpl in *.
  split; [exact P |].
  split.
  { rewrite (rx_count_eq st Hwf), rx_count_eq by exact W1.
    simpl. rewrite P. simpl. lia. }
  repeat split; reflexivity.
Qed.

(** X7.  While a backup is active the pump takes no second snapshot: for
    every character, the signal included, the backup slot, the backup flag
    and the reader are as before; and the signal, if the classifier does
    not claim it and the buffer has room, is stored like any ordinary
    character. *)
Theorem signal_with_backup_active (st : usb_state) (c : Z) :
  rx_wf (usb_rxbuffer st) ->
  backup (usb_rxbuffer st) = true ->
  let st' := usb_execute_realtime_byte st c in
  usb_rxbackup st' = usb_rxbackup st /\
  backup (usb_rxbuffer st') = true /\
  hal_stream_read st' = hal_stream_read st /\
  (enqueue_realtime_command c = false ->
   (head (usb_rxbuffer st) + 1) mod RX_BUFFER_SIZE
   <> tail (usb_rxbuffer st) ->
   rx_contents (usb_rxbuffer st') = rx_contents (usb_rxbuffer st) ++ [c]).
Proof.
  intros Hwf Hb st'. subst st'.
  destruct (byte_cases st c)
    as [(_ & F & _) | [(Hc & E) | [(_ & Hf & E) | (_ & Hf & E)]]];
    [congruence | rewrite E .. ]; simpl.
  - repeat split; auto. congruence.
  - repeat split; auto. congruence.
  - repeat split; auto. intros _ _. apply contents_push; assumption.
Qed.

(** X17.  Ordinary characters pumped while others are still waiting go
    behind them: if all fit, reading the buffer empty returns first the
    characters that were waiting and then the new ones, each in its
    order, and the next read returns -1. *)
Theorem pump_appends_behind_waiting (st : usb_state) (bs : list Z) :
  rx_wf (usb_rxbuffer st) ->
  Forall ordinary bs ->
  Z.of_nat (length (rx_contents (usb_rxbuffer st)) + length bs)
  <= RX_BUFFER_SIZE - 1 ->
  let st1 := usb_execute_realtime_loop st bs in
  let r := getc_n (length (rx_contents (usb_rxbuffer st)) + length bs) st1 in
  fst r = rx_contents (usb_rxbuffer st) ++ bs /\
  usb_serialGetC (snd r) = (-1, snd r).
Proof.
  intros Hwf Hord Hroom st1 r.
  destruct (loop_ordinary bs st Hwf Hord Hroom) as (W1 & C1 & _).
  fold st1 in W1, C1.
  destruct (getc_drain (length (rx_contents (usb_rxbuffer st)) + length bs)
              st1 W1) as (F & W2 & E2).
  { rewrite C1, length_app. reflexivity. }
  fold r in F, W2, E2.
  split; [rewrite F; exact C1 | apply getc_empty; assumption].
Qed.

End Ring.

(** ** Further properties that need no assumption on the buffer size *)

(** X4.  [usb_serialRxFlush] from any state: no character is waiting, the
    count is zero, the overflow flag is clear and [usb_serialGetC] returns
    -1; the array, the backup flag, the backup slot and the reader are
    not touched. *)
Theorem flush_empties (st : usb_state) :
  let st' := usb_serialRxFlush st in
  usb_serialRxCount st' = 0 /\
  rx_contents (usb_rxbuffer st') = [] /\
  overflow (usb_rxbuffer st') = false /\
  usb_serialGetC st' = (-1, st') /\
  data (usb_rxbuffer st') = data (usb_rxbuffer st) /\
  backup (usb_rxbuffer st') = backup (usb_rxbuffer st) /\
  usb_rxbackup st' = usb_rxbackup st /\
  hal_stream_read st' = hal_stream_read st.
Proof. simpl. repeat split; reflexivity. Qed.

Lemma slot_flag_op (o : op) (st : usb_state) :
  backup (usb_rxbackup st) = false ->
  backup (usb_rxbackup (snd (run_op o st))) = false.
Proof.
  intros Hs. destruct o as [c | | | | | b]; simpl.
  - unfold usb_execute_realtime_byte.
    destruct ((c =? CMD_TOOL_ACK) && negb (backup (usb_rxbuffer st))) eqn:E.
    + simpl. apply andb_true_iff in E as [_ E].
      apply negb_true_iff in E. exact E.
    + destruct (negb (enqueue_realtime_command c)); [| exact Hs].
      destruct (Z.land _ _ =? _); exact Hs.
  - unfold hal_read, usb_serialGetC, serialGetNull.
    destruct (hal_stream_read st); [| exact Hs].
    destruct (_ =? _); exact Hs.
  - unfold usb_serialGetC. destruct (_ =? _); exact Hs.
  - exact Hs.
  - exact Hs.
  - destruct b; [exact Hs |].
    destruct (backup (usb_rxbuffer st)); exact Hs.
Qed.

(** X8.  In every state the calls reach from the initial one the backup
    slot has its own backup flag clear.  Hence a resume always ends with
    no backup active, and a second resume right after it changes nothing
    and returns the same value. *)
Theorem resume_always_clears_backup (tr : list op) :
  let st := snd (run tr usb_init) in
  let r := usb_serialSuspendInput false st in
  backup (usb_rxbackup st) = false /\
  backup (usb_rxbuffer (snd r)) = false /\
  usb_serialSuspendInput false (snd r) = r.
Proof.
  assert (forall tr st, backup (usb_rxbackup st) = false ->
                        backup (usb_rxbackup (snd (run tr st))) = false)
    as Hrun.
  { clear tr. induction tr as [| o tr IH]; intros st Hs; simpl.
    - exact Hs.
    - pose proof (slot_flag_op o st Hs) as H1.
      destruct (run_op o st) as [v st1]. simpl in H1.
      pose proof (IH st1 H1) as H2.
      destruct (run tr st1) as [vs st2]. exact H2. }
  intros st r. pose proof (Hrun tr usb_init eq_refl) as Hs. fold st in Hs.
  assert (backup (usb_rxbuffer (snd r)) = false) as Hb.
  { subst r. unfold usb_serialSuspendInput. simpl.
    destruct (backup (usb_rxbuffer st)) eqn:E; [exact Hs | exact E]. }
  split; [exact Hs |]. split; [exact Hb |].
  unfold usb_serialSuspendInput at 1. rewrite Hb.
  subst r. unfold usb_serialSuspendInput.
  destruct (backup (usb_rxbuffer st)); reflexivity.
Qed.

(** ** Further properties of the transmit side *)

Lemma copy_cells_length (src dst : list Z) (off : Z) :
  length (copy_cells dst off src) = length dst.
Proof.
  revert dst off. induction src as [| c src IH]; intros dst off; simpl.
  - reflexivity.
  - rewrite IH. apply wr_length.
Qed.

(** [copy_cells] inside the array replaces a segment and nothing else. *)
Lemma copy_cells_inside (src dst : list Z) (n : nat) :
  (n + length src <= length dst)%nat ->
  copy_cells dst (Z.of_nat n) src
  = take n dst ++ src ++ drop (n + length src) dst.
Proof.
  revert dst n. induction src as [| c src IH]; intros dst n Hn; simpl in *.
  - rewrite Nat.add_0_r, take_drop. reflexivity.
  - replace (Z.of_nat n + 1) with (Z.of_nat (S n)) by lia.
    rewrite IH by (rewrite wr_length; lia).
    unfold wr. rewrite Nat2Z.id.
    rewrite (take_S_r _ n c) by (apply list_lookup_insert_eq; lia).
    rewrite take_insert_ge by lia.
    rewrite drop_insert_lt by lia.
    replace (S n + length src)%nat with (n + S (length src))%nat by lia.
    rewrite <- app_assoc. reflexivity.
Qed.

Lemma size_t_range (x : Z) : 0 <= size_t x < 4294967296.
Proof. unfold size_t. apply Z.mod_pos_bound. lia. Qed.

(** One flush, whatever the transport and the callback answer. *)
Lemma flush_invariant (fuel : nat) (w : tx_world) (e : flush_exit)
      (w' : tx_world) :
  0 <= txbuf_s (txbuf w) ->
  0 <= txbuf_length (txbuf w) < 4294967296 ->
  usb_serialWriteS_flush fuel w = Ok (e, w') ->
  usb_out w' ++ tx_pending w' = usb_out w ++ tx_pending w /\
  txbuf_data (txbuf w') = txbuf_data (txbuf w) /\
  txbuf_max_length (txbuf w') = txbuf_max_length (txbuf w) /\
  txbuf_s (txbuf w') + txbuf_length (txbuf w')
  = txbuf_s (txbuf w) + txbuf_length (txbuf w) /\
  0 <= txbuf_length (txbuf w') <= txbuf_length (txbuf w) /\
  (e = LoopDone -> txbuf_length (txbuf w') = 0) /\
  (e = Returned ->
   exists n, stream_blocking_callback n = false).
Proof.
  revert w. induction fuel as [| fuel IH]; intros w Hs Hl Hrun;
    [discriminate |].
  simpl in Hrun.
  destruct (txbuf_length (txbuf w) =? 0) eqn:E0.
  { injection Hrun as <- <-. apply Z.eqb_eq in E0.
    repeat split; try reflexivity; try lia; auto. discriminate. }
  apply Z.eqb_neq in E0.
  pose proof (size_t_range (availableForWrite (n_avail w))) as Ha.
  set (avail := size_t (availableForWrite (n_avail w))) in *.
  set (len := if avail <? txbuf_length (txbuf w)
              then avail else txbuf_length (txbuf w)) in *.
  set (w1 := if avail >? 10 then _ else _) in Hrun.
  assert (usb_out w1 ++ tx_pending w1 = usb_out w ++ tx_pending w /\
          txbuf_data (txbuf w1) = txbuf_data (txbuf w) /\
          txbuf_max_length (txbuf w1) = txbuf_max_length (txbuf w) /\
          txbuf_s (txbuf w1) + txbuf_length (txbuf w1)
          = txbuf_s (txbuf w) + txbuf_length (txbuf w) /\
          0 <= txbuf_length (txbuf w1) <= txbuf_length (txbuf w) /\
          0 <= txbuf_s (txbuf w1)) as (P1 & D1 & M1 & S1 & L1 & Z1).
  { subst w1. destruct (avail >? 10) eqn:E10.
    - rewrite Z.gtb_ltb in E10. apply Z.ltb_lt in E10.
      assert (0 < len <= txbuf_length (txbuf w)) as Hlen.
      { subst len. destruct (avail <? txbuf_length (txbuf w)) eqn:E;
          [apply Z.ltb_lt in E | apply Z.ltb_ge in E]; lia. }
      unfold tx_pending. simpl.
      rewrite (size_t_small (txbuf_length (txbuf w) - len)) by lia.
      split.
      { rewrite <- app_assoc. f_equal.
        replace (Z.to_nat (txbuf_s (txbuf w) + len))
          with (Z.to_nat (txbuf_s (txbuf w)) + Z.to_nat len)%nat by lia.
        rewrite <- drop_drop, take_take_drop. f_equal. lia. }
      repeat split; try reflexivity; lia.
    - simpl. repeat split; try reflexivity; lia. }
  destruct (txbuf_length (txbuf w1) =? 0) eqn:E1.
  - destruct (IH w1 Z1 ltac:(lia) Hrun) as (P & D & M & S & L & F & R).
    split; [congruence |]. split; [congruence |]. split; [congruence |].
    split; [lia |]. split; [lia |]. split; assumption.
  - destruct (stream_blocking_callback (n_poll w1)) eqn:Ecb; simpl in Hrun.
    + set (w2 := mk_world _ _ _ _) in Hrun.
      destruct (IH w2 Z1 ltac:(simpl; lia) Hrun)
        as (P & D & M & S & L & F & R).
      simpl in *. unfold tx_pending in P at 2. simpl in P.
      split; [rewrite P; exact P1 |].
      split; [congruence |]. split; [congruence |].
      split; [lia |]. split; [lia |]. split; assumption.
    + injection Hrun as <- <-. unfold tx_pending in *. simpl.
      split; [exact P1 |]. split; [exact D1 |]. split; [exact M1 |].
      split; [exact S1 |]. split; [exact L1 |].
      split; [discriminate |]. intros _. eauto.
Qed.

(** With room reported every time and a callback that never cancels the
    loop is done after at most as many rounds as characters are pending. *)
Lemma flush_terminates (fuel : nat) (w : tx_world) :
  (forall n, 10 < size_t (availableForWrite n)) ->
  (forall n, stream_blocking_callback n = true) ->
  0 <= txbuf_length (txbuf w) < 4294967296 ->
  (Z.to_nat (txbuf_length (txbuf w)) < fuel)%nat ->
  exists w', usb_serialWriteS_flush fuel w = Ok (LoopDone, w').
Proof.
  intros Hav Hcb. revert w.
  induction fuel as [| fuel IH]; intros w Hl Hf; [lia |].
  simpl. destruct (txbuf_length (txbuf w) =? 0) eqn:E0; [eauto |].
  apply Z.eqb_neq in E0.
  pose proof (Hav (n_avail w)) as Ha.
  pose proof (size_t_range (availableForWrite (n_avail w))) as Hr.
  set (avail := size_t (availableForWrite (n_avail w))) in *.
  assert ((avail >? 10) = true) as ->
    by (rewrite Z.gtb_ltb; apply Z.ltb_lt; exact Ha).
  set (len := if avail <? txbuf_length (txbuf w)
              then avail else txbuf_length (txbuf w)).
  assert (0 < len <= txbuf_length (txbuf w)) as Hlen.
  { subst len. destruct (avail <? txbuf_length (txbuf w)) eqn:E;
      [apply Z.ltb_lt in E | apply Z.ltb_ge in E]; lia. }
  simpl. rewrite (size_t_small (txbuf_length (txbuf w) - len)) by lia.
  rewrite Hcb. simpl.
  destruct (txbuf_length (txbuf w) - len =? 0); apply IH; simpl;
    rewrite ?size_t_small by lia; lia.
Qed.

Lemma pending_length (w : tx_world) :
  length (tx_pending w)
  = Nat.min (Z.to_nat (txbuf_length (txbuf w)))
            (length (txbuf_data (txbuf w)) - Z.to_nat (txbuf_s (txbuf w))).
Proof. unfold tx_pending. rewrite length_take, length_drop. reflexivity. Qed.

(** What a flush has sent is a prefix of what was pending. *)
Lemma flush_sent (fuel : nat) (w : tx_world) (e : flush_exit)
      (w' : tx_world) :
  0 <= txbuf_s (txbuf w) ->
  0 <= txbuf_length (txbuf w) < 4294967296 ->
  usb_serialWriteS_flush fuel w = Ok (e, w') ->
  exists sent,
    usb_out w' = usb_out w ++ sent /\ sent ++ tx_pending w' = tx_pending w.
Proof.
  intros Hs Hl Hrun.
  destruct (flush_invariant fuel w e w' Hs Hl Hrun)
    as (P & D & _ & S & L & _).
  assert (length (tx_pending w') <= length (tx_pending w))%nat as Hlen.
  { rewrite !pending_length, D. lia. }
  assert (length (usb_out w) <= length (usb_out w'))%nat as Hout.
  { apply (f_equal (@length Z)) in P. rewrite !length_app in P. lia. }
  assert (usb_out w = take (length (usb_out w)) (usb_out w')) as Hpre.
  { rewrite <- (take_app_le _ (tx_pending w')) by exact Hout.
    rewrite P. symmetry. apply take_app_length. }
  exists (drop (length (usb_out w)) (usb_out w')).
  assert (usb_out w' = usb_out w ++ drop (length (usb_out w)) (usb_out w'))
    as Hcat.
  { transitivity (take (length (usb_out w)) (usb_out w')
                  ++ drop (length (usb_out w)) (usb_out w'));
      [symmetry; apply take_drop | f_equal; symmetry; exact Hpre]. }
  split; [exact Hcat |].
  rewrite Hcat, <- app_assoc in P. apply app_inv_head in P. exact P.
Qed.

(** The append path of [usb_serialWriteS] on a consistent stage, for a
    string that is not empty and fits. *)
Lemma writeS_fits (fuel : nat) (s : list Z) (w : tx_world) :
  tx_consistent w ->
  0 < strlen s ->
  strlen s + txbuf_length (txbuf w) < BLOCK_TX_BUFFER_SIZE ->
  usb_serialWriteS fuel s w
  = if (rd s (strlen s - 1) =? ASCII_LF)
       || (txbuf_length (txbuf w) + strlen s >? txbuf_max_length (txbuf w))
    then
      let* r := usb_serialWriteS_flush fuel
                  (mk_world
                     (mk_tx (txbuf_length (txbuf w) + strlen s)
                            (txbuf_max_length (txbuf w)) 0
                            (copy_cells (txbuf_data (txbuf w))
                                    (txbuf_length (txbuf w)) s))
                     (usb_out w) (n_avail w) (n_poll w)) in
      match r with
      | (Returned, w') => Ok w'
      | (LoopDone, w') =>
        Ok (mk_world (mk_tx 0 (txbuf_max_length (txbuf w')) 0
                            (txbuf_data (txbuf w')))
                     (usb_out w') (n_avail w') (n_poll w'))
      end
    else
      Ok (mk_world
            (mk_tx (txbuf_length (txbuf w) + strlen s)
                   (txbuf_max_length (txbuf w))
                   (txbuf_length (txbuf w) + strlen s)
                   (copy_cells (txbuf_data (txbuf w))
                           (txbuf_length (txbuf w)) s))
            (usb_out w) (n_avail w) (n_poll w)).
Proof.
  intros (Hc & Hl & Hd & Hb) Hs Hfit. unfold usb_serialWriteS.
  rewrite (size_t_small (strlen s)) by lia.
  rewrite (size_t_small (strlen s - 1)) by lia.
  rewrite (size_t_small (strlen s + txbuf_length (txbuf w))) by lia.
  rewrite (size_t_small (txbuf_length (txbuf w) + strlen s)) by lia.
  apply Z.ltb_lt in Hfit. rewrite Hfit. rewrite Hc.
  rewrite memcpy_ok by lia. cbn [bind]. unfold char_at.
  assert (((0 <=? strlen s - 1) && (strlen s - 1 <? strlen s)) = true)
    as ->.
  { apply andb_true_iff. split; [apply Z.leb_le | apply Z.ltb_lt]; lia. }
  cbn [bind txbuf_length txbuf_max_length txbuf_data].
  reflexivity.
Qed.

(** After the append the first [length + strlen s] cells of the stage are
    what was staged followed by the string. *)
Lemma staged_after_copy_cells (s : list Z) (w : tx_world) :
  tx_consistent w ->
  strlen s + txbuf_length (txbuf w) < BLOCK_TX_BUFFER_SIZE ->
  take (Z.to_nat (txbuf_length (txbuf w) + strlen s))
       (copy_cells (txbuf_data (txbuf w)) (txbuf_length (txbuf w)) s)
  = tx_staged w ++ s.
Proof.
  intros (Hc & Hl & Hd & Hb) Hfit. unfold strlen in *.
  rewrite <- (Z2Nat.id (txbuf_length (txbuf w))) at 2 by lia.
  rewrite copy_cells_inside by lia.
  rewrite app_assoc. unfold tx_staged. apply take_app_length'.
  rewrite length_app, length_take. lia.
Qed.

Lemma writeS_flushes (fuel : nat) (s : list Z) (w : tx_world) :
  tx_consistent w ->
  0 < strlen s ->
  strlen s + txbuf_length (txbuf w) < BLOCK_TX_BUFFER_SIZE ->
  (rd s (strlen s - 1) =? ASCII_LF)
  || (txbuf_length (txbuf w) + strlen s >? txbuf_max_length (txbuf w))
  = true ->
  (forall n, 10 < size_t (availableForWrite n)) ->
  (forall n, stream_blocking_callback n = true) ->
  (Z.to_nat (txbuf_length (txbuf w) + strlen s) < fuel)%nat ->
  exists w',
    usb_serialWriteS fuel s w = Ok w' /\
    usb_out w' = usb_out w ++ tx_staged w ++ s /\
    txbuf_length (txbuf w') = 0 /\
    txbuf_s (txbuf w') = 0 /\
    txbuf_max_length (txbuf w') = txbuf_max_length (txbuf w) /\
    tx_consistent w'.
Proof.
  intros Hcons Hs Hfit Hguard Hav Hcb Hfuel.
  pose proof Hcons as (Hc & Hl & Hd & Hb).
  rewrite (writeS_fits fuel s w Hcons Hs Hfit), Hguard.
  set (w0 := mk_world _ _ _ _).
  destruct (flush_terminates fuel w0 Hav Hcb) as [w1 Hrun];
    [simpl; lia | simpl; lia |].
  destruct (flush_invariant fuel w0 LoopDone w1) as (P & D & M & _ & _ & F & _);
    [simpl; lia | simpl; lia | exact Hrun |].
  specialize (F eq_refl).
  rewrite Hrun. cbn [bind]. eexists. split; [reflexivity |].
  unfold tx_pending in P. rewrite F in P. subst w0.
  cbn [txbuf txbuf_length txbuf_s txbuf_data usb_out] in P.
  change (Z.to_nat 0) with 0%nat in P.
  rewrite take_0, drop_0, app_nil_r, (staged_after_copy_cells s w Hcons Hfit)
    in P.
  simpl. split; [exact P |].
  split; [reflexivity |]. split; [reflexivity |]. split; [exact M |].
  unfold tx_consistent. simpl. rewrite D. simpl. rewrite copy_cells_length.
  repeat split; lia.
Qed.

Lemma writeS_stages (fuel : nat) (s : list Z) (w : tx_world) :
  tx_consistent w ->
  0 < strlen s ->
  strlen s + txbuf_length (txbuf w) < BLOCK_TX_BUFFER_SIZE ->
  (rd s (strlen s - 1) =? ASCII_LF)
  || (txbuf_length (txbuf w) + strlen s >? txbuf_max_length (txbuf w))
  = false ->
  exists w',
    usb_serialWriteS fuel s w = Ok w' /\
    usb_out w' = usb_out w /\
    n_avail w' = n_avail w /\
    n_poll w' = n_poll w /\
    tx_staged w' = tx_staged w ++ s /\
    txbuf_length (txbuf w') = txbuf_length (txbuf w) + strlen s /\
    txbuf_max_length (txbuf w') = txbuf_max_length (txbuf w) /\
    tx_consistent w'.
Proof.
  intros Hcons Hs Hfit Hguard.
  pose proof Hcons as (Hc & Hl & Hd & Hb).
  rewrite (writeS_fits fuel s w Hcons Hs Hfit), Hguard.
  eexists. split; [reflexivity |]. simpl.
  split; [reflexivity |]. split; [reflexivity |]. split; [reflexivity |].
  split; [apply staged_after_copy_cells; assumption |].
  split; [reflexivity |]. split; [reflexivity |].
  unfold tx_consistent. simpl. rewrite copy_cells_length.
  repeat split; lia.
Qed.

(** X9.  A flush that returns, whatever the transport and the callback
    answered and however it was left, has handed to the transport a prefix
    of the characters that were pending, in their order, and the rest is
    still pending at the cursor: nothing is lost, sent twice or reordered.
    Left through the end of the loop it has sent all of them; it is left
    through the [return] only when the callback has answered false. *)
Theorem flush_sends_prefix_in_order (fuel : nat) (w : tx_world)
        (e : flush_exit) (w' : tx_world) :
  0 <= txbuf_s (txbuf w) ->
  0 <= txbuf_length (txbuf w) < 4294967296 ->
  usb_serialWriteS_flush fuel w = Ok (e, w') ->
  exists sent,
    usb_out w' = usb_out w ++ sent /\
    sent ++ tx_pending w' = tx_pending w /\
    txbuf_data (txbuf w') = txbuf_data (txbuf w) /\
    (e = LoopDone -> sent = tx_pending w) /\
    (e = Returned -> exists n, stream_blocking_callback n = false).
Proof.
  intros Hs Hl Hrun.
  destruct (flush_invariant fuel w e w' Hs Hl Hrun)
    as (_ & D & _ & _ & _ & F & R).
  destruct (flush_sent fuel w e w' Hs Hl Hrun) as (sent & O & P).
  exists sent. split; [exact O |]. split; [exact P |]. split; [exact D |].
  split; [| exact R].
  intros He. specialize (F He). rewrite <- P. unfold tx_pending.
  rewrite F. change (Z.to_nat 0) with 0%nat.
  rewrite take_0, app_nil_r. reflexivity.
Qed.

(** X10.  If the transport answers every query with room for more than 10
    characters and the callback never answers false, the flush loop ends
    within as many rounds as characters are pending plus one, with all of
    them handed to the transport in order and none left. *)
Theorem flush_completes (fuel : nat) (w : tx_world) :
  (forall n, 10 < size_t (availableForWrite n)) ->
  (forall n, stream_blocking_callback n = true) ->
  0 <= txbuf_s (txbuf w) ->
  0 <= txbuf_length (txbuf w) < 4294967296 ->
  (Z.to_nat (txbuf_length (txbuf w)) < fuel)%nat ->
  exists w',
    usb_serialWriteS_flush fuel w = Ok (LoopDone, w') /\
    usb_out w' = usb_out w ++ tx_pending w /\
    txbuf_length (txbuf w') = 0.
Proof.
  intros Hav Hcb Hs Hl Hfuel.
  destruct (flush_terminates fuel w Hav Hcb Hl Hfuel) as [w' Hrun].
  destruct (flush_invariant fuel w LoopDone w' Hs Hl Hrun)
    as (P & _ & _ & _ & _ & F & _).
  specialize (F eq_refl). exists w'. split; [exact Hrun |].
  split; [| exact F].
  rewrite <- P. unfold tx_pending at 1. rewrite F.
  change (Z.to_nat 0) with 0%nat. rewrite take_0, app_nil_r. reflexivity.
Qed.

(** X11.  [usb_serialWriteS] on a consistent stage with a string that is
    not empty, fits, and ends in a line feed or lifts the staged length
    above the high-water mark: if the transport always reports room for
    more than 10 characters and the callback never cancels, the call
    returns having handed to the transport what was staged followed by
    the string, and the stage is empty with the cursor at its base. *)
Theorem write_string_sends_line (fuel : nat) (s : list Z) (w : tx_world) :
  tx_consistent w ->
  0 < strlen s ->
  strlen s + txbuf_length (txbuf w) < BLOCK_TX_BUFFER_SIZE ->
  rd s (strlen s - 1) = ASCII_LF \/
  txbuf_max_length (txbuf w) < txbuf_length (txbuf w) + strlen s ->
  (forall n, 10 < size_t (availableForWrite n)) ->
  (forall n, stream_blocking_callback n = true) ->
  (Z.to_nat (txbuf_length (txbuf w) + strlen s) < fuel)%nat ->
  exists w',
    usb_serialWriteS fuel s w = Ok w' /\
    usb_out w' = usb_out w ++ tx_staged w ++ s /\
    txbuf_length (txbuf w') = 0 /\
    txbuf_s (txbuf w') = 0 /\
    tx_consistent w'.
Proof.
  intros Hcons Hs Hfit Hguard Hav Hcb Hfuel.
  destruct (writeS_flushes fuel s w Hcons Hs Hfit) as (w' & R & O & L & C & _ & K);
    try assumption.
  { apply orb_true_iff. destruct Hguard as [H | H].
    - left. apply Z.eqb_eq. exact H.
    - right. rewrite Z.gtb_ltb. apply Z.ltb_lt. exact H. }
  exists w'. auto 10.
Qed.

(** X12.  [usb_serialWriteS] on a consistent stage with a string that is
    not empty, fits, does not end in a line feed and keeps the staged
    length at or below the high-water mark: nothing goes to the transport
    and neither collaborator is called; the string is appended to what
    was staged and the stage stays consistent. *)
Theorem write_string_stages_text (fuel : nat) (s : list Z) (w : tx_world) :
  tx_consistent w ->
  0 < strlen s ->
  strlen s + txbuf_length (txbuf w) < BLOCK_TX_BUFFER_SIZE ->
  rd s (strlen s - 1) <> ASCII_LF ->
  txbuf_length (txbuf w) + strlen s <= txbuf_max_length (txbuf w) ->
  exists w',
    usb_serialWriteS fuel s w = Ok w' /\
    usb_out w' = usb_out w /\
    n_avail w' = n_avail w /\
    n_poll w' = n_poll w /\
    tx_staged w' = tx_staged w ++ s /\
    tx_consistent w'.
Proof.
  intros Hcons Hs Hfit Hlf Hmax.
  destruct (writeS_stages fuel s w Hcons Hs Hfit)
    as (w' & R & O & A & P & T & _ & _ & K).
  { apply orb_false_iff. split.
    - apply Z.eqb_neq. exact Hlf.
    - rewrite Z.gtb_ltb. apply Z.ltb_ge. exact Hmax. }
  exists w'. auto 10.
Qed.

(** X13.  [usb_serialWriteLn] on a consistent stage, for a string that is
    not empty, with [ASCII_EOL] ending in a line feed and room for both:
    if the transport always reports room for more than 10 characters and
    the callback never cancels, the transport has received what was
    staged, then the string, then [ASCII_EOL], and the stage is empty;
    whether the string itself already caused a flush makes no
    difference. *)
Theorem write_line_sends_text_and_eol (fuel : nat) (s : list Z)
        (w : tx_world) :
  tx_consistent w ->
  0 < strlen s ->
  0 < strlen ASCII_EOL ->
  rd ASCII_EOL (strlen ASCII_EOL - 1) = ASCII_LF ->
  strlen s + strlen ASCII_EOL + txbuf_length (txbuf w)
  < BLOCK_TX_BUFFER_SIZE ->
  (forall n, 10 < size_t (availableForWrite n)) ->
  (forall n, stream_blocking_callback n = true) ->
  (Z.to_nat (txbuf_length (txbuf w) + strlen s + strlen ASCII_EOL)
   < fuel)%nat ->
  exists w',
    usb_serialWriteLn fuel s w = Ok w' /\
    usb_out w' = usb_out w ++ tx_staged w ++ s ++ ASCII_EOL /\
    txbuf_length (txbuf w') = 0 /\
    tx_consistent w'.
Proof.
  intros Hcons Hs He Hlf Hfit Hav Hcb Hfuel.
  pose proof Hcons as (_ & Hl & _ & _).
  assert ((rd ASCII_EOL (strlen ASCII_EOL - 1) =? ASCII_LF) = true) as Hg2
    by (apply Z.eqb_eq; exact Hlf).
  unfold usb_serialWriteLn.
  destruct ((rd s (strlen s - 1) =? ASCII_LF)
            || (txbuf_length (txbuf w) + strlen s
                >? txbuf_max_length (txbuf w))) eqn:Hg1.
  - destruct (writeS_flushes fuel s w Hcons Hs) as (w1 & R1 & O1 & L1 & _ & _ & K1);
      try assumption; try lia.
    destruct (writeS_flushes fuel ASCII_EOL w1 K1 He)
      as (w2 & R2 & O2 & L2 & _ & _ & K2); try assumption.
    { rewrite L1. lia. }
    { rewrite Hg2. reflexivity. }
    { rewrite L1. lia. }
    rewrite R1. cbn [bind]. exists w2. split; [exact R2 |].
    split; [| split; assumption].
    rewrite O2, O1. unfold tx_staged at 2. rewrite L1.
    change (Z.to_nat 0) with 0%nat. rewrite take_0.
    rewrite <- !app_assoc. reflexivity.
  - destruct (writeS_stages fuel s w Hcons Hs) as (w1 & R1 & O1 & _ & _ & T1 & L1 & _ & K1);
      try assumption; try lia.
    destruct (writeS_flushes fuel ASCII_EOL w1 K1 He)
      as (w2 & R2 & O2 & L2 & _ & _ & K2); try assumption.
    { rewrite L1. lia. }
    { rewrite Hg2. reflexivity. }
    { rewrite L1. lia. }
    rewrite R1. cbn [bind]. exists w2. split; [exact R2 |].
    split; [| split; assumption].
    rewrite O2, O1, T1. rewrite <- !app_assoc. reflexivity.
Qed.

(** X14.  If the callback never answers false, every call of
    [usb_serialWriteS] that returns leaves a consistent stage consistent
    and the high-water mark alone, and what the transport has received
    before is a prefix of what it has received after. *)
Theorem write_string_keeps_stage_consistent (fuel : nat) (s : list Z)
        (w w' : tx_world) :
  tx_consistent w ->
  strlen s < 4294967296 - BLOCK_TX_BUFFER_SIZE ->
  (forall n, stream_blocking_callback n = true) ->
  usb_serialWriteS fuel s w = Ok w' ->
  tx_consistent w' /\
  txbuf_max_length (txbuf w') = txbuf_max_length (txbuf w) /\
  exists sent, usb_out w' = usb_out w ++ sent.
Proof.
  intros Hcons Hlen Hcb Hrun. pose proof Hcons as (Hc & Hl & Hd & Hb).
  destruct (Z.eq_dec (strlen s) 0) as [E0 | E0].
  { assert (s = []) as ->
      by (apply length_zero_iff_nil; unfold strlen in E0; lia).
    exfalso. revert Hrun. unfold usb_serialWriteS.
    change (size_t (strlen [])) with 0. rewrite Z.add_0_l.
    rewrite (size_t_small (txbuf_length (txbuf w))) by lia.
    assert ((txbuf_length (txbuf w) <? BLOCK_TX_BUFFER_SIZE) = true) as ->
      by (apply Z.ltb_lt; lia).
    discriminate. }
  assert (0 < strlen s) as Hs by (unfold strlen in *; lia).
  destruct (Z_lt_le_dec (strlen s + txbuf_length (txbuf w))
                        BLOCK_TX_BUFFER_SIZE) as [Hfit | Hno].
  - rewrite (writeS_fits fuel s w Hcons Hs Hfit) in Hrun.
    destruct (_ || _).
    + set (w0 := mk_world _ _ _ _) in Hrun.
      destruct (usb_serialWriteS_flush fuel w0) as [[e w1] | |] eqn:Hfl;
        try discriminate.
      destruct (flush_invariant fuel w0 e w1) as (_ & D & M & _ & _ & _ & R);
        [simpl; lia | simpl; lia | exact Hfl |].
      destruct (flush_sent fuel w0 e w1) as (sent & O & _);
        [simpl; lia | simpl; lia | exact Hfl |].
      destruct e.
      * cbn [bind] in Hrun. injection Hrun as <-. subst w0.
        cbn [txbuf txbuf_length txbuf_s txbuf_data txbuf_max_length usb_out]
          in *.
        split; [| split; [exact M | exists sent; exact O]].
        unfold tx_consistent.
        cbn [txbuf txbuf_length txbuf_s txbuf_data]. rewrite D.
        rewrite copy_cells_length. repeat split; lia.
      * exfalso. destruct (R eq_refl) as [n Hn]. rewrite Hcb in Hn.
        discriminate.
    + injection Hrun as <-.
      cbn [txbuf txbuf_length txbuf_s txbuf_data txbuf_max_length usb_out].
      split; [| split; [reflexivity | exists []; symmetry; apply app_nil_r]].
      unfold tx_consistent.
      cbn [txbuf txbuf_length txbuf_s txbuf_data].
      rewrite copy_cells_length. repeat split; lia.
  - revert Hrun. unfold usb_serialWriteS.
    rewrite (size_t_small (strlen s)) by lia.
    rewrite (size_t_small (strlen s + txbuf_length (txbuf w))) by lia.
    assert ((strlen s + txbuf_length (txbuf w) <? BLOCK_TX_BUFFER_SIZE)
            = false) as -> by (apply Z.ltb_ge; lia).
    intros [= <-]. split; [exact Hcons |]. split; [reflexivity |].
    exists []. symmetry. apply app_nil_r.
Qed.

Lemma write_loop_inside (n : nat) (s : list Z) (i : nat) (w : tx_world) :
  (i + n <= length s)%nat ->
  usb_serialWrite_loop n s (Z.of_nat i) w
  = Ok (mk_world (txbuf w) (usb_out w ++ take n (drop i s))
                 (n_avail w) (n_poll w)).
Proof.
  revert i w. induction n as [| n IH]; intros i w Hn; simpl.
  - rewrite app_nil_r. destruct w; reflexivity.
  - unfold byte_at.
    assert (((0 <=? Z.of_nat i) && (Z.of_nat i <? Z.of_nat (length s)))
            = true) as ->.
    { apply andb_true_iff. split; [apply Z.leb_le | apply Z.ltb_lt]; lia. }
    cbn [bind].
    replace (Z.of_nat i + 1) with (Z.of_nat (S i)) by lia.
    rewrite IH by lia. simpl.
    destruct (lookup_lt_is_Some_2 s i ltac:(lia)) as [x Hx].
    unfold rd. rewrite Nat2Z.id, Hx. simpl.
    rewrite (drop_S _ x i Hx). simpl. rewrite <- app_assoc. reflexivity.
Qed.

Lemma write_loop_outside (n : nat) (s : list Z) (i : nat) (w : tx_world) :
  (i <= length s)%nat -> (length s < i + n)%nat ->
  usb_serialWrite_loop n s (Z.of_nat i) w
  = OutOfBounds (Z.of_nat (length s)).
Proof.
  revert i w. induction n as [| n IH]; intros i w Hi Hn; [lia |].
  simpl. unfold byte_at.
  destruct (Nat.eq_dec i (length s)) as [-> | Hne].
  - rewrite Z.ltb_irrefl, andb_false_r. reflexivity.
  - assert (((0 <=? Z.of_nat i) && (Z.of_nat i <? Z.of_nat (length s)))
            = true) as ->.
    { apply andb_true_iff. split; [apply Z.leb_le | apply Z.ltb_lt]; lia. }
    cbn [bind].
    replace (Z.of_nat i + 1) with (Z.of_nat (S i)) by lia.
    apply IH; lia.
Qed.

(** X15.  [usb_serialWrite] with a count that does not exceed the buffer
    hands exactly the first [len] bytes to the transport, in order, and
    does not touch the stage: text staged there and not yet flushed stays
    behind.  With a count beyond the buffer the loop reads outside it, at
    the first index past its end. *)
Theorem write_raw_bypasses_stage (s : list Z) (len : Z) (w : tx_world) :
  0 <= len < 65536 ->
  (len <= Z.of_nat (length s) ->
   usb_serialWrite s len w
   = Ok (mk_world (txbuf w) (usb_out w ++ take (Z.to_nat len) s)
                  (n_avail w) (n_poll w))) /\
  (Z.of_nat (length s) < len ->
   usb_serialWrite s len w = OutOfBounds (Z.of_nat (length s))).
Proof.
  intros Hlen. unfold usb_serialWrite, uint16.
  rewrite Z.mod_small by lia. split; intros H.
  - pose proof (write_loop_inside (Z.to_nat len) s 0 w ltac:(lia)) as E.
    rewrite drop_0 in E. exact E.
  - exact (write_loop_outside (Z.to_nat len) s 0 w ltac:(lia) ltac:(lia)).
Qed.

(** X16.  [usb_serialInit] on a stage of [BLOCK_TX_BUFFER_SIZE] cells with
    nothing staged makes the stage consistent, and, when the transport
    reports room for at least 20 characters, puts the high-water mark 20
    below the smaller of that room and [BLOCK_TX_BUFFER_SIZE]. *)
Theorem init_high_water_mark (w : tx_world) :
  20 <= BLOCK_TX_BUFFER_SIZE <= 4294967296 ->
  20 <= size_t (availableForWrite (n_avail w)) ->
  txbuf_length (txbuf w) = 0 ->
  Z.of_nat (length (txbuf_data (txbuf w))) = BLOCK_TX_BUFFER_SIZE ->
  let w' := usb_serialInit w in
  tx_consistent w' /\
  txbuf_max_length (txbuf w')
  = Z.min (size_t (availableForWrite (n_avail w))) BLOCK_TX_BUFFER_SIZE - 20
  /\
  0 <= txbuf_max_length (txbuf w') <= BLOCK_TX_BUFFER_SIZE - 20 /\
  usb_out w' = usb_out w.
Proof.
  intros Hb Ha Hl Hd. simpl.
  pose proof (size_t_range (availableForWrite (n_avail w))) as Hr.
  set (a := size_t (availableForWrite (n_avail w))) in *.
  assert (size_t ((if a >? BLOCK_TX_BUFFER_SIZE
                   then BLOCK_TX_BUFFER_SIZE else a) - 20)
          = Z.min a BLOCK_TX_BUFFER_SIZE - 20) as E.
  { destruct (a >? BLOCK_TX_BUFFER_SIZE) eqn:Eg; rewrite Z.gtb_ltb in Eg;
      [apply Z.ltb_lt in Eg | apply Z.ltb_ge in Eg];
      rewrite size_t_small by lia; lia. }
  rewrite E. unfold tx_consistent. simpl. rewrite Hl.
  repeat split; lia.
Qed.

End UsbSerial.

(** ** The statements at concrete inputs

    An 8-byte ring, 0xA3 as the stream-redirect signal, 0x18 as the reset
    character, [sample_classifier] as the real-time classifier; on the
    transmit side a 256-byte stage with high-water mark 43 and line feed
    10. *)

Lemma C1_signal_byte_snapshot_witness :
  usb_rxbackup
    (usb_execute_realtime_byte 8 163 sample_classifier
       (snd (usb_execute_realtime 8 163 sample_classifier [71; 48]
               (usb_init 8))) 163)
  = mk_rx 2 0 false false [71; 48; 0; 0; 0; 0; 0; 0] /\
  hal_stream_read
    (usb_execute_realtime_byte 8 163 sample_classifier
       (snd (usb_execute_realtime 8 163 sample_classifier [71; 48]
               (usb_init 8))) 163)
  = fn_usb_serialGetC.
Proof.
  destruct (C1_signal_byte_snapshot 8 163 sample_classifier
              (snd (usb_execute_realtime 8 163 sample_classifier [71; 48]
                      (usb_init 8))) 163 eq_refl eq_refl)
    as (K & _ & _ & _ & _ & _ & R).
  split; [rewrite K; reflexivity | exact R].
Defined.

(** The sentence of the specification fails in the initial state: after
    the signal the reader is [usb_serialGetC], and a character pumped next
    is handed out by [hal.stream.read]. *)
Lemma C1_null_reader_counterexample :
  ~ signal_installs_null_reader 8 163 sample_classifier (usb_init 8) 163 /\
  fst (hal_read 8
         (usb_execute_realtime_loop 8 163 sample_classifier (usb_init 8)
            [163; 71]))
  = 71.
Proof.
  split; [| reflexivity].
  intros H. destruct (H eq_refl eq_refl) as (_ & _ & _ & R).
  discriminate R.
Qed.

Lemma C2_flush_abort_keeps_length_witness :
  exists w',
    usb_serialWriteS 256 10 (fun _ => 0) (fun _ => false) 1 [111; 107; 10]
      (mk_world (mk_tx 0 43 0 (replicate 256 0)) [] 0 0)
    = Ok w' /\
    txbuf_s (txbuf w') = 0 /\
    txbuf_length (txbuf w') = 3 /\
    txbuf_length (txbuf w') <> 0 /\
    usb_out w' = [].
Proof.
  apply (C2_flush_abort_keeps_length 256 10 (fun _ => 0) (fun _ => false)
           0 [111; 107; 10]
           (mk_world (mk_tx 0 43 0 (replicate 256 0)) [] 0 0)).
  - vm_compute. split; reflexivity.
  - vm_compute. discriminate.
  - vm_compute. discriminate.
  - vm_compute. reflexivity.
  - left. reflexivity.
  - vm_compute. discriminate.
  - vm_compute. discriminate.
  - reflexivity.
Defined.

(** What the stale length does to the next call: "ok\n" is abandoned as
    above, the transport then has room for 63 bytes, and "x\n" goes out
    as five bytes, the two of the string and three left over on the
    stage. *)
Example aborted_flush_garbles_next_write :
  bind
    (usb_serialWriteS 256 10 (fun n => match n with O => 0 | _ => 63 end)
       (fun _ => false) 1 [111; 107; 10]
       (mk_world (mk_tx 0 43 0 (replicate 256 0)) [] 0 0))
    (fun w1 =>
       bind
         (usb_serialWriteS 256 10
            (fun n => match n with O => 0 | _ => 63 end)
            (fun _ => false) 2 [120; 10] w1)
         (fun w2 => Ok (usb_out w2)))
  = Ok [120; 10; 10; 0; 0].
Proof. vm_compute. reflexivity. Qed.

Lemma C4_empty_string_reads_out_of_bounds_witness :
  usb_serialWriteS 256 10 (fun _ => 63) (fun _ => true) 4 []
    (mk_world (mk_tx 0 43 0 (replicate 256 0)) [] 0 0)
  = OutOfBounds 4294967295.
Proof.
  apply (C4_empty_string_reads_out_of_bounds 256 10 (fun _ => 63)
           (fun _ => true) 4
           (mk_world (mk_tx 0 43 0 (replicate 256 0)) [] 0 0)).
  vm_compute. reflexivity.
Defined.

Lemma C3_resume_restores_snapshot_witness :
  usb_rxbuffer
    (snd (usb_serialSuspendInput false
            (snd (run 8 163 24 sample_classifier
                    [OpByte 88; OpSuspend true; OpRead; OpByte 89; OpGetC]
                    (usb_execute_realtime_byte 8 163 sample_classifier
                       (snd (usb_execute_realtime 8 163 sample_classifier
                               [71; 49] (usb_init 8))) 163)))))
  = mk_rx 2 0 false false [71; 49; 0; 0; 0; 0; 0; 0] /\
  fst (getc_n 8 2
         (snd (usb_serialSuspendInput false
                 (snd (run 8 163 24 sample_classifier
                         [OpByte 88; OpSuspend true; OpRead; OpByte 89; OpGetC]
                         (usb_execute_realtime_byte 8 163 sample_classifier
                            (snd (usb_execute_realtime 8 163 sample_classifier
                                    [71; 49] (usb_init 8))) 163))))))
  = [71; 49].
Proof.
  assert (0 <= 3 <= 16) as Hbits by lia.
  assert (rx_wf 8 (usb_rxbuffer
                     (snd (usb_execute_realtime 8 163 sample_classifier
                             [71; 49] (usb_init 8))))) as Hwf
    by (vm_compute; repeat split; congruence).
  destruct (C3_resume_restores_snapshot 8 163 24 sample_classifier 3
              Hbits eq_refl
              (snd (usb_execute_realtime 8 163 sample_classifier [71; 49]
                      (usb_init 8)))
              [OpByte 88; OpSuspend true; OpRead; OpByte 89; OpGetC]
              Hwf eq_refl eq_refl)
    as (E & _ & _ & _ & F & _).
  split; [rewrite E; reflexivity | exact F].
Defined.

(** The sentence of the specification on resuming fails in a state the
    calls of the interface reach: a character and the signal are pumped,
    [usb_serialSuspendInput(true)] installs the null reader, and the resume
    restores the buffer but not the reader, so that [hal.stream.read]
    keeps reporting no data. *)
Lemma C3_resume_reader_counterexample :
  ~ resume_restores_reader 8
      (snd (usb_serialSuspendInput true
              (snd (usb_execute_realtime 8 163 sample_classifier [71; 163]
                      (usb_init 8))))).
Proof.
  intros H. pose proof (H eq_refl) as P. simpl in P.
  destruct P as (_ & _ & R & _). discriminate R.
Qed.

Lemma C5_fifo_order_witness :
  fst (getc_n 8 7
         (usb_execute_realtime_loop 8 163 sample_classifier
            (snd (getc_n 8 5
                    (usb_execute_realtime_loop 8 163 sample_classifier
                       (usb_init 8) [65; 66; 67; 68; 69])))
            [71; 48; 32; 88; 49; 48; 10]))
  = [71; 48; 32; 88; 49; 48; 10].
Proof.
  assert (0 <= 3 <= 16) as Hbits by lia.
  assert (rx_wf 8 (usb_rxbuffer
                     (snd (getc_n 8 5
                             (usb_execute_realtime_loop 8 163
                                sample_classifier (usb_init 8)
                                [65; 66; 67; 68; 69]))))) as Hwf
    by (vm_compute; repeat split; congruence).
  assert (Forall (ordinary 163 sample_classifier)
                 [71; 48; 32; 88; 49; 48; 10]) as Hord
    by (repeat constructor; discriminate).
  assert (Z.of_nat (length [71; 48; 32; 88; 49; 48; 10]) <= 8 - 1) as Hlen
    by (simpl; lia).
  exact (proj1 (C5_fifo_order 8 163 sample_classifier 3 Hbits eq_refl
                  _ _ Hwf eq_refl Hord Hlen)).
Defined.

Lemma C6_full_buffer_back_pressure_witness :
  usb_execute_realtime 8 163 sample_classifier [89; 90]
    (snd (usb_execute_realtime 8 163 sample_classifier
            [71; 48; 32; 88; 49; 48; 10] (usb_init 8)))
  = ([89; 90],
     snd (usb_execute_realtime 8 163 sample_classifier
            [71; 48; 32; 88; 49; 48; 10] (usb_init 8))) /\
  usb_rxbuffer
    (usb_execute_realtime_byte 8 163 sample_classifier
       (snd (usb_execute_realtime 8 163 sample_classifier
               [71; 48; 32; 88; 49; 48; 10] (usb_init 8))) 89)
  = mk_rx 7 0 true false [71; 48; 32; 88; 49; 48; 10; 0].
Proof.
  assert (0 <= 3 <= 16) as Hbits by lia.
  assert (rx_wf 8 (usb_rxbuffer
                     (snd (usb_execute_realtime 8 163 sample_classifier
                             [71; 48; 32; 88; 49; 48; 10] (usb_init 8)))))
    as Hwf by (vm_compute; repeat split; congruence).
  assert (ordinary 163 sample_classifier 89) as Hord
    by (split; [reflexivity | discriminate]).
  destruct (C6_full_buffer_back_pressure 8 163 sample_classifier 3 Hbits
              eq_refl
              (snd (usb_execute_realtime 8 163 sample_classifier
                      [71; 48; 32; 88; 49; 48; 10] (usb_init 8)))
              [89; 90] 89 Hwf eq_refl Hord)
    as (P & _ & O & D & H & T & B & _).
  split; [exact P |].
  destruct (usb_rxbuffer (usb_execute_realtime_byte _ _ _ _ _))
    as [h t o b d].
  simpl in O, D, H, T, B. subst. reflexivity.
Defined.

(** The sentence of the specification fails on the pump as a whole: the
    ring of 8 is filled with 7 characters by one call, and the next call,
    with one more ordinary character in the transport, does not set the
    overflow flag and leaves the character in the transport. *)
Lemma C6_full_buffer_counterexample :
  ~ full_buffer_push_overflows 8 163 sample_classifier
      (snd (usb_execute_realtime 8 163 sample_classifier
              [71; 48; 32; 88; 49; 48; 10] (usb_init 8))) 89 /\
  overflow
    (usb_rxbuffer
       (snd (usb_execute_realtime 8 163 sample_classifier [89]
               (snd (usb_execute_realtime 8 163 sample_classifier
                       [71; 48; 32; 88; 49; 48; 10] (usb_init 8))))))
  = false /\
  fst (usb_execute_realtime 8 163 sample_classifier [89]
         (snd (usb_execute_realtime 8 163 sample_classifier
                 [71; 48; 32; 88; 49; 48; 10] (usb_init 8))))
  = [89].
Proof.
  split; [| split; reflexivity].
  intros H.
  assert (ordinary 163 sample_classifier 89) as Hord
    by (split; [reflexivity | discriminate]).
  destruct (H eq_refl Hord) as (O & _). vm_compute in O. discriminate O.
Qed.

Lemma C7_claimed_bytes_never_read_witness :
  fst (run 8 163 24 sample_classifier
         [OpByte 63; OpByte 71; OpByte 24; OpRead; OpRead] (usb_init 8))
  = [71; -1] /\
  (forall tr v,
      In v (fst (run 8 163 24 sample_classifier tr (usb_init 8))) ->
      v = -1 \/ sample_classifier v = false \/
      (v = 24 /\ existsb is_cancel tr = true)).
Proof.
  assert (0 <= 3 <= 16) as Hbits by lia.
  split; [reflexivity |].
  exact (proj2 (C7_claimed_bytes_never_read 8 163 24 sample_classifier 3
                  Hbits eq_refl)).
Defined.

Lemma C8_ring_invariant_witness :
  usb_inv 8 (usb_init 8) /\
  forall tr, usb_inv 8 (snd (run 8 163 24 sample_classifier tr (usb_init 8))).
Proof.
  assert (0 <= 3 <= 16) as Hbits by lia.
  destruct (C8_ring_invariant 8 163 24 sample_classifier 3 Hbits eq_refl)
    as (I & _ & R & _).
  split; [exact I | exact R].
Defined.

(** ** The further properties at concrete inputs *)

Lemma pump_call_never_overflows_witness :
  overflow
    (usb_rxbuffer
       (snd (usb_execute_realtime 8 163 sample_classifier
               [71; 49; 63; 88; 50; 10; 71; 50; 89; 51] (usb_init 8))))
  = false /\
  fst (usb_execute_realtime 8 163 sample_classifier
         [71; 49; 63; 88; 50; 10; 71; 50; 89; 51] (usb_init 8))
  = [50; 89; 51].
Proof.
  assert (0 <= 3 <= 16) as Hbits by lia.
  assert (rx_wf 8 (usb_rxbuffer (usb_init 8))) as Hwf
    by (vm_compute; repeat split; congruence).
  destruct (pump_call_never_overflows 8 163 sample_classifier 3 Hbits eq_refl
              [71; 49; 63; 88; 50; 10; 71; 50; 89; 51] (usb_init 8) Hwf)
    as (O & _).
  split; [exact O | reflexivity].
Defined.

Lemma pump_call_full_takes_nothing_witness :
  usb_execute_realtime 8 163 sample_classifier [88; 89]
    (usb_execute_realtime_loop 8 163 sample_classifier (usb_init 8)
       [71; 48; 32; 88; 49; 48; 10])
  = ([88; 89],
     usb_execute_realtime_loop 8 163 sample_classifier (usb_init 8)
       [71; 48; 32; 88; 49; 48; 10]).
Proof.
  assert (0 <= 3 <= 16) as Hbits by lia.
  assert (rx_wf 8 (usb_rxbuffer
                     (usb_execute_realtime_loop 8 163 sample_classifier
                        (usb_init 8) [71; 48; 32; 88; 49; 48; 10]))) as Hwf
    by (vm_compute; repeat split; congruence).
  exact (pump_call_full_takes_nothing 8 163 sample_classifier 3 Hbits eq_refl
           [88; 89] _ Hwf eq_refl).
Defined.

Lemma rx_count_plus_free_witness :
  usb_serialRxCount 8
    (usb_execute_realtime_loop 8 163 sample_classifier (usb_init 8) [71; 49])
  + usb_serialRxFree 8
      (usb_execute_realtime_loop 8 163 sample_classifier (usb_init 8)
         [71; 49])
  = 8 - 1.
Proof.
  assert (0 <= 3 <= 16) as Hbits by lia.
  assert (rx_wf 8 (usb_rxbuffer
                     (usb_execute_realtime_loop 8 163 sample_classifier
                        (usb_init 8) [71; 49]))) as Hwf
    by (vm_compute; repeat split; congruence).
  exact (proj1 (proj2 (rx_count_plus_free 8 3 Hbits eq_refl _ Hwf))).
Defined.

Lemma cancel_then_read_witness :
  fst (usb_serialGetC 8
         (usb_serialRxCancel 8 24
            (usb_execute_realtime_loop 8 163 sample_classifier (usb_init 8)
               [71; 49])))
  = 24.
Proof.
  assert (0 <= 3 <= 16) as Hbits by lia.
  assert (2 <= 8) as H2 by lia.
  assert (rx_wf 8 (usb_rxbuffer
                     (usb_execute_realtime_loop 8 163 sample_classifier
                        (usb_init 8) [71; 49]))) as Hwf
    by (vm_compute; repeat split; congruence).
  exact (proj1 (proj2 (proj2 (cancel_then_read 8 24 3 Hbits eq_refl _
                                H2 Hwf)))).
Defined.

Lemma getc_takes_oldest_witness :
  usb_serialRxCount 8
    (snd (usb_serialGetC 8
            (usb_execute_realtime_loop 8 163 sample_classifier (usb_init 8)
               [71; 49])))
  = usb_serialRxCount 8
      (usb_execute_realtime_loop 8 163 sample_classifier (usb_init 8)
         [71; 49])
    - 1.
Proof.
  assert (0 <= 3 <= 16) as Hbits by lia.
  assert (rx_wf 8 (usb_rxbuffer
                     (usb_execute_realtime_loop 8 163 sample_classifier
                        (usb_init 8) [71; 49]))) as Hwf
    by (vm_compute; repeat split; congruence).
  assert (head (usb_rxbuffer
                  (usb_execute_realtime_loop 8 163 sample_classifier
                     (usb_init 8) [71; 49]))
          <> tail (usb_rxbuffer
                     (usb_execute_realtime_loop 8 163 sample_classifier
                        (usb_init 8) [71; 49]))) as Hne
    by (vm_compute; discriminate).
  exact (proj1 (proj2 (getc_takes_oldest 8 3 Hbits eq_refl _ Hwf Hne))).
Defined.

Lemma signal_with_backup_active_witness :
  usb_rxbackup
    (usb_execute_realtime_byte 8 163 (fun _ => false)
       (usb_execute_realtime_loop 8 163 (fun _ => false) (usb_init 8)
          [71; 163]) 163)
  = mk_rx 1 0 false false [71; 0; 0; 0; 0; 0; 0; 0] /\
  rx_contents 8
    (usb_rxbuffer
       (usb_execute_realtime_byte 8 163 (fun _ => false)
          (usb_execute_realtime_loop 8 163 (fun _ => false) (usb_init 8)
             [71; 163]) 163))
  = [163].
Proof.
  assert (0 <= 3 <= 16) as Hbits by lia.
  assert (rx_wf 8 (usb_rxbuffer
                     (usb_execute_realtime_loop 8 163 (fun _ => false)
                        (usb_init 8) [71; 163]))) as Hwf
    by (vm_compute; repeat split; congruence).
  destruct (signal_with_backup_active 8 163 (fun _ => false) 3 Hbits eq_refl
              (usb_execute_realtime_loop 8 163 (fun _ => false) (usb_init 8)
                 [71; 163]) 163 Hwf eq_refl)
    as (K & _ & _ & C).
  split; [rewrite K; reflexivity |].
  rewrite C; [reflexivity | reflexivity | vm_compute; discriminate].
Defined.

Lemma flush_sends_prefix_in_order_witness :
  exists sent,
    [65; 66; 67; 68; 69; 70; 71; 72; 73; 74; 75] = [] ++ sent /\
    sent
    ++ tx_pending
         (mk_world
            (mk_tx 3 43 11
                   [65; 66; 67; 68; 69; 70; 71; 72; 73; 74; 75; 76; 77; 10;
                    0; 0])
            [65; 66; 67; 68; 69; 70; 71; 72; 73; 74; 75] 1 1)
    = tx_pending
        (mk_world
           (mk_tx 14 43 0
                  [65; 66; 67; 68; 69; 70; 71; 72; 73; 74; 75; 76; 77; 10;
                   0; 0])
           [] 0 0).
Proof.
  assert (0 <= 0) as Hs by lia.
  assert (0 <= 14 < 4294967296) as Hl by lia.
  destruct (flush_sends_prefix_in_order (fun _ => 11) (fun _ => false) 4
              (mk_world
                 (mk_tx 14 43 0
                        [65; 66; 67; 68; 69; 70; 71; 72; 73; 74; 75; 76; 77;
                         10; 0; 0])
                 [] 0 0)
              Returned
              (mk_world
                 (mk_tx 3 43 11
                        [65; 66; 67; 68; 69; 70; 71; 72; 73; 74; 75; 76; 77;
                         10; 0; 0])
                 [65; 66; 67; 68; 69; 70; 71; 72; 73; 74; 75] 1 1)
              Hs Hl eq_refl)
    as (sent & O & P & _).
  exists sent. split; [exact O | exact P].
Defined.

Lemma flush_completes_witness :
  exists w',
    usb_serialWriteS_flush (fun _ => 11) (fun _ => true) 15
      (mk_world
         (mk_tx 14 43 0
                [65; 66; 67; 68; 69; 70; 71; 72; 73; 74; 75; 76; 77; 10;
                 0; 0])
         [] 0 0)
    = Ok (LoopDone, w') /\
    usb_out w' = [65; 66; 67; 68; 69; 70; 71; 72; 73; 74; 75; 76; 77; 10].
Proof.
  assert (forall n : nat, 10 < size_t ((fun _ : nat => 11) n)) as Hav
    by (intros n; reflexivity).
  assert (forall n : nat, (fun _ : nat => true) n = true) as Hcb
    by (intros n; reflexivity).
  assert (0 <= 0) as Hs by lia.
  assert (0 <= 14 < 4294967296) as Hl by lia.
  assert (Z.to_nat 14 < 15)%nat as Hf by lia.
  destruct (flush_completes (fun _ => 11) (fun _ => true) 15
              (mk_world
                 (mk_tx 14 43 0
                        [65; 66; 67; 68; 69; 70; 71; 72; 73; 74; 75; 76; 77;
                         10; 0; 0])
                 [] 0 0)
              Hav Hcb Hs Hl Hf)
    as (w' & R & O & _).
  exists w'. split; [exact R | exact O].
Defined.

Lemma write_string_sends_line_witness :
  exists w',
    usb_serialWriteS 256 10 (fun _ => 63) (fun _ => true) 20 [111; 107; 10]
      (mk_world (mk_tx 2 43 2 ([71; 48] ++ replicate 254 0)) [] 0 0)
    = Ok w' /\
    usb_out w' = [71; 48; 111; 107; 10] /\
    txbuf_length (txbuf w') = 0.
Proof.
  assert (tx_consistent 256
            (mk_world (mk_tx 2 43 2 ([71; 48] ++ replicate 254 0)) [] 0 0))
    as Hcons by (vm_compute; repeat split; congruence).
  assert (0 < strlen [111; 107; 10]) as Hs by reflexivity.
  assert (strlen [111; 107; 10] + 2 < 256) as Hfit by reflexivity.
  assert (rd [111; 107; 10] (strlen [111; 107; 10] - 1) = 10 \/
          43 < 2 + strlen [111; 107; 10]) as Hg by (left; reflexivity).
  assert (forall n : nat, 10 < size_t ((fun _ : nat => 63) n)) as Hav
    by (intros n; reflexivity).
  assert (forall n : nat, (fun _ : nat => true) n = true) as Hcb
    by (intros n; reflexivity).
  assert (Z.to_nat (2 + strlen [111; 107; 10]%Z) < 20)%nat as Hf
    by (vm_compute; lia).
  destruct (write_string_sends_line 256 10 (fun _ => 63) (fun _ => true) 20
              [111; 107; 10]
              (mk_world (mk_tx 2 43 2 ([71; 48] ++ replicate 254 0)) [] 0 0)
              Hcons Hs Hfit Hg Hav Hcb Hf)
    as (w' & R & O & L & _).
  exists w'. split; [exact R |]. split; [exact O | exact L].
Defined.

Lemma write_string_stages_text_witness :
  exists w',
    usb_serialWriteS 256 10 (fun _ => 63) (fun _ => true) 0 [71; 49]
      (mk_world (mk_tx 2 43 2 ([71; 48] ++ replicate 254 0)) [] 0 0)
    = Ok w' /\
    usb_out w' = [] /\
    tx_staged w' = [71; 48; 71; 49].
Proof.
  assert (tx_consistent 256
            (mk_world (mk_tx 2 43 2 ([71; 48] ++ replicate 254 0)) [] 0 0))
    as Hcons by (vm_compute; repeat split; congruence).
  assert (0 < strlen [71; 49]) as Hs by reflexivity.
  assert (strlen [71; 49] + 2 < 256) as Hfit by reflexivity.
  assert (rd [71; 49] (strlen [71; 49] - 1) <> 10) as Hlf
    by (vm_compute; discriminate).
  assert (2 + strlen [71; 49] <= 43) as Hmax by (vm_compute; discriminate).
  destruct (write_string_stages_text 256 10 (fun _ => 63) (fun _ => true) 0
              [71; 49]
              (mk_world (mk_tx 2 43 2 ([71; 48] ++ replicate 254 0)) [] 0 0)
              Hcons Hs Hfit Hlf Hmax)
    as (w' & R & O & _ & _ & T & _).
  exists w'. split; [exact R |]. split; [exact O | exact T].
Defined.

Lemma write_line_sends_text_and_eol_witness :
  exists w',
    usb_serialWriteLn 256 10 (fun _ => 63) (fun _ => true) [13; 10] 20
      [111; 107]
      (mk_world (mk_tx 2 43 2 ([71; 48] ++ replicate 254 0)) [] 0 0)
    = Ok w' /\
    usb_out w' = [71; 48; 111; 107; 13; 10] /\
    txbuf_length (txbuf w') = 0.
Proof.
  assert (tx_consistent 256
            (mk_world (mk_tx 2 43 2 ([71; 48] ++ replicate 254 0)) [] 0 0))
    as Hcons by (vm_compute; repeat split; congruence).
  assert (0 < strlen [111; 107]) as Hs by reflexivity.
  assert (0 < strlen [13; 10]) as He by reflexivity.
  assert (rd [13; 10] (strlen [13; 10] - 1) = 10) as Hlf by reflexivity.
  assert (strlen [111; 107] + strlen [13; 10] + 2 < 256) as Hfit
    by reflexivity.
  assert (forall n : nat, 10 < size_t ((fun _ : nat => 63) n)) as Hav
    by (intros n; reflexivity).
  assert (forall n : nat, (fun _ : nat => true) n = true) as Hcb
    by (intros n; reflexivity).
  assert (Z.to_nat (2 + strlen [111; 107]%Z + strlen [13; 10]%Z) < 20)%nat
    as Hf by (vm_compute; lia).
  destruct (write_line_sends_text_and_eol 256 10 (fun _ => 63)
              (fun _ => true) [13; 10] 20 [111; 107]
              (mk_world (mk_tx 2 43 2 ([71; 48] ++ replicate 254 0)) [] 0 0)
              Hcons Hs He Hlf Hfit Hav Hcb Hf)
    as (w' & R & O & L & _).
  exists w'. split; [exact R |]. split; [exact O | exact L].
Defined.

Lemma write_string_keeps_stage_consistent_witness :
  tx_consistent 256
    (mk_world (mk_tx 0 43 0 ([111; 107; 10] ++ replicate 253 0))
              [111; 107; 10] 1 0).
Proof.
  assert (tx_consistent 256
            (mk_world (mk_tx 0 43 0 (replicate 256 0)) [] 0 0))
    as Hcons by (vm_compute; repeat split; congruence).
  assert (strlen [111; 107; 10] < 4294967296 - 256) as Hlen by reflexivity.
  assert (forall n : nat, (fun _ : nat => true) n = true) as Hcb
    by (intros n; reflexivity).
  exact (proj1 (write_string_keeps_stage_consistent 256 10 (fun _ => 63)
                  (fun _ => true) 5 [111; 107; 10]
                  (mk_world (mk_tx 0 43 0 (replicate 256 0)) [] 0 0)
                  (mk_world (mk_tx 0 43 0 ([111; 107; 10] ++ replicate 253 0))
                            [111; 107; 10] 1 0)
                  Hcons Hlen Hcb eq_refl)).
Defined.

Lemma write_raw_bypasses_stage_witness :
  usb_serialWrite [1; 2; 3; 4] 3
    (mk_world (mk_tx 2 43 2 [71; 48; 0; 0]) [] 0 0)
  = Ok (mk_world (mk_tx 2 43 2 [71; 48; 0; 0]) [1; 2; 3] 0 0) /\
  usb_serialWrite [1; 2; 3; 4] 6
    (mk_world (mk_tx 2 43 2 [71; 48; 0; 0]) [] 0 0)
  = OutOfBounds 4.
Proof.
  assert (0 <= 3 < 65536) as H3 by lia.
  assert (0 <= 6 < 65536) as H6 by lia.
  assert (3 <= Z.of_nat (length [1; 2; 3; 4])) as Hin by (simpl; lia).
  assert (Z.of_nat (length [1; 2; 3; 4]) < 6) as Hout by (simpl; lia).
  split.
  - exact (proj1 (write_raw_bypasses_stage [1; 2; 3; 4] 3
                    (mk_world (mk_tx 2 43 2 [71; 48; 0; 0]) [] 0 0) H3) Hin).
  - exact (proj2 (write_raw_bypasses_stage [1; 2; 3; 4] 6
                    (mk_world (mk_tx 2 43 2 [71; 48; 0; 0]) [] 0 0) H6) Hout).
Defined.

Lemma init_high_water_mark_witness :
  txbuf_max_length
    (txbuf (usb_serialInit 256 (fun _ => 63)
              (mk_world (mk_tx 0 0 0 (replicate 256 0)) [] 0 0)))
  = 43 /\
  tx_consistent 256
    (usb_serialInit 256 (fun _ => 63)
       (mk_world (mk_tx 0 0 0 (replicate 256 0)) [] 0 0)).
Proof.
  assert (20 <= 256 <= 4294967296) as Hb by lia.
  assert (20 <= size_t ((fun _ : nat => 63) 0%nat)) as Ha
    by (vm_compute; discriminate).
  destruct (init_high_water_mark 256 (fun _ => 63)
              (mk_world (mk_tx 0 0 0 (replicate 256 0)) [] 0 0)
              Hb Ha eq_refl eq_refl)
    as (K & M & _).
  split; [rewrite M; reflexivity | exact K].
Defined.

Lemma pump_appends_behind_waiting_witness :
  fst (getc_n 8 5
         (usb_execute_realtime_loop 8 163 sample_classifier
            (snd (getc_n 8 6
                    (usb_execute_realtime_loop 8 163 sample_classifier
                       (usb_init 8) [65; 66; 67; 68; 69; 70; 71])))
            [88; 89; 90; 10]))
  = [71; 88; 89; 90; 10].
Proof.
  assert (0 <= 3 <= 16) as Hbits by lia.
  assert (rx_wf 8 (usb_rxbuffer
                     (snd (getc_n 8 6
                             (usb_execute_realtime_loop 8 163
                                sample_classifier (usb_init 8)
                                [65; 66; 67; 68; 69; 70; 71]))))) as Hwf
    by (vm_compute; repeat split; congruence).
  assert (Forall (ordinary 163 sample_classifier) [88; 89; 90; 10]) as Hord
    by (repeat constructor; discriminate).
  assert (Z.of_nat
            (length (rx_contents 8
                       (usb_rxbuffer
                          (snd (getc_n 8 6
                                  (usb_execute_realtime_loop 8 163
                                     sample_classifier (usb_init 8)
                                     [65; 66; 67; 68; 69; 70; 71])))))
             + length [88; 89; 90; 10]%Z)
          <= 8 - 1) as Hroom by (vm_compute; discriminate).
  exact (proj1 (pump_appends_behind_waiting 8 163 sample_classifier 3 Hbits
                  eq_refl _ _ Hwf Hord Hroom)).
Defined.
